(** * G-code checker: a shallow embedding of [gcode.py] and its properties

    The development follows the class [GCodeChecker]: the instance fields
    become a record that every method takes and returns, the regular
    expressions become values of a small backtracking matcher, and the
    files the checker opens become a function from paths to entries.

    Conventions of the model.
    - Text is 8-bit text read as ASCII: [upper], [lower] and the
      white-space test follow Python's [str] on code points below 128 and
      leave the others alone.
    - [float(...)] of a matched numeral is the exact rational the decimal
      denotes; binary rounding is not modelled.  Formatting a number
      inside a message is left to the function [float_repr].
    - [print] is not modelled.
    - [os.path] is the POSIX one, and a path names a file as the string
      it is: [O200.nc] and [./O200.nc] are two keys of the file system.
    - [analyze_file] calls itself through the resolver.  The recursion
      limit of the interpreter is counted in activations of
      [analyze_file]: [depth] is the number of nested activations the
      limit leaves room for, and the call that would go beyond it raises
      [RecursionError] at the calling line, inside the [try] of the
      calling activation, whose [except Exception] catches it.  At which
      of the helper calls of the innermost activation the interpreter
      raises the error is not modelled.  [None] stands for this
      exception on its way to the caller. *)

From Stdlib Require Import String Ascii List Bool Arith ZArith QArith Qabs Lia.
From Stdlib Require Import DecimalString Wellfounded.
Import ListNotations.

Open Scope list_scope.
Open Scope string_scope.

(** ** Python string primitives *)

Definition code (c : ascii) : nat := nat_of_ascii c.

Definition between (lo hi : nat) (c : ascii) : bool :=
  (lo <=? code c)%nat && (code c <=? hi)%nat.

(** [str.isspace] on one character: TAB..CR, FS..US and the space. *)
Definition is_space (c : ascii) : bool := between 9 13 c || between 28 32 c.

(** The class [\d]. *)
Definition is_digit (c : ascii) : bool := between 48 57 c.

Definition upper_char (c : ascii) : ascii :=
  if between 97 122 c then ascii_of_nat (code c - 32) else c.

Definition lower_char (c : ascii) : ascii :=
  if between 65 90 c then ascii_of_nat (code c + 32) else c.

Fixpoint smap (f : ascii -> ascii) (s : string) : string :=
  match s with
  | EmptyString => EmptyString
  | String c r => String (f c) (smap f r)
  end.

Definition upper (s : string) : string := smap upper_char s.
Definition lower (s : string) : string := smap lower_char s.

Fixpoint lstrip (s : string) : string :=
  match s with
  | String c r => if is_space c then lstrip r else s
  | EmptyString => EmptyString
  end.

Fixpoint rstrip (s : string) : string :=
  match s with
  | EmptyString => EmptyString
  | String c r =>
      match rstrip r with
      | EmptyString => if is_space c then EmptyString else String c EmptyString
      | r' => String c r'
      end
  end.

Definition strip (s : string) : string := rstrip (lstrip s).

(** [not s] *)
Definition is_empty (s : string) : bool :=
  match s with EmptyString => true | _ => false end.

(** [s.startswith(p)] *)
Definition startswith (s p : string) : bool := prefix p s.

(** [sub in s] *)
Fixpoint contains (sub s : string) : bool :=
  prefix sub s ||
  match s with
  | EmptyString => false
  | String _ r => contains sub r
  end.

(** [c in s] for a one-character [c]. *)
Fixpoint has_char (c : ascii) (s : string) : bool :=
  match s with
  | EmptyString => false
  | String d r => Ascii.eqb c d || has_char c r
  end.

(** [x in l] on a list of strings. *)
Definition mem (x : string) (l : list string) : bool :=
  existsb (String.eqb x) l.

(** ** Regular expressions

    Every pattern of the source is a sequence of character classes, each
    taken once, optionally ([?]), or repeated greedily ([*], [+]).  The
    matcher backtracks the way [re] does: a greedy item first takes all it
    can and gives characters back one at a time while the rest fails. *)

Inductive quant : Type := One | Opt | Star | Plus.

Definition item : Type := ((ascii -> bool) * quant)%type.
Definition regex : Type := list item.

(** Greedy repetition of a class, followed by the continuation [k]. *)
Fixpoint star (cls : ascii -> bool) (k : string -> option string) (s : string)
  : option string :=
  match s with
  | String c r =>
      if cls c then
        match star cls k r with
        | Some m => Some (String c m)
        | None => k s
        end
      else k s
  | EmptyString => k s
  end.

Definition cons_match (c : ascii) (m : option string) : option string :=
  option_map (String c) m.

(** [match_here p s] is the text matched by [p] anchored at the start of
    [s] ([re.match]), or [None]. *)
Fixpoint match_here (p : regex) (s : string) : option string :=
  match p with
  | [] => Some EmptyString
  | (cls, One) :: p' =>
      match s with
      | String c r => if cls c then cons_match c (match_here p' r) else None
      | EmptyString => None
      end
  | (cls, Opt) :: p' =>
      match s with
      | String c r =>
          if cls c then
            match match_here p' r with
            | Some m => Some (String c m)
            | None => match_here p' s
            end
          else match_here p' s
      | EmptyString => match_here p' s
      end
  | (cls, Star) :: p' => star cls (match_here p') s
  | (cls, Plus) :: p' =>
      match s with
      | String c r => if cls c then cons_match c (star cls (match_here p') r) else None
      | EmptyString => None
      end
  end.

(** [re.match(p, s)] as a truth value. *)
Definition re_match (p : regex) (s : string) : bool :=
  match match_here p s with Some _ => true | None => false end.

(** [re.search(p, s)]: the leftmost match, as the matched text. *)
Fixpoint re_search (p : regex) (s : string) : option string :=
  match match_here p s with
  | Some m => Some m
  | None =>
      match s with
      | String _ r => re_search p r
      | EmptyString => None
      end
  end.

(** In every pattern with a group, the group is all that follows the
    first, one-character, literal: [group(1)] is the match without it. *)
Definition group1 (m : string) : string :=
  match m with
  | String _ r => r
  | EmptyString => EmptyString
  end.

Definition lit (c : ascii) : ascii -> bool := Ascii.eqb c.
Definition one_of (cs : string) : ascii -> bool := fun c => has_char c cs.

(** [[+-]?\d*\.?\d+] *)
Definition re_signed_number : regex :=
  [(one_of "+-", Opt); (is_digit, Star); (lit ".", Opt); (is_digit, Plus)].

(** [f'{axis}([+-]?\d*\.?\d+)'] *)
Definition re_axis (axis : ascii) : regex := (lit axis, One) :: re_signed_number.

(** [F(\d*\.?\d+)] *)
Definition re_feed : regex :=
  [(lit "F", One); (is_digit, Star); (lit ".", Opt); (is_digit, Plus)].

(** [^[GM]\d+] *)
Definition re_GM : regex := [(one_of "GM", One); (is_digit, Plus)].

(** [^[XYZIJKR]] *)
Definition re_XYZIJKR : regex := [(one_of "XYZIJKR", One)].

(** [^[OP]\d+] *)
Definition re_OP : regex := [(one_of "OP", One); (is_digit, Plus)].

(** [^O\d+] and [O(\d+)] *)
Definition re_O : regex := [(lit "O", One); (is_digit, Plus)].

(** [P(\d+)] *)
Definition re_P : regex := [(lit "P", One); (is_digit, Plus)].

(** ** Numbers *)

Fixpoint pow10 (n : nat) : positive :=
  match n with
  | O => 1%positive
  | S k => (10 * pow10 k)%positive
  end.

Definition digit_value (c : ascii) : Z := Z.of_nat (code c - 48).

(** The digits of [s] read in base ten after [acc]; stops at the first
    character that is not a digit and returns what is left. *)
Fixpoint read_digits (acc : Z) (n : nat) (s : string) : Z * nat * string :=
  match s with
  | String c r =>
      if is_digit c then read_digits (10 * acc + digit_value c)%Z (S n) r
      else (acc, n, s)
  | EmptyString => (acc, n, s)
  end.

(** [float(s)] for a numeral [s] of the shape [[+-]?\d*\.?\d+]: the exact
    value of the decimal. *)
Definition float (s : string) : Q :=
  let '(neg, body) :=
    match s with
    | String "-" r => (true, r)
    | String "+" r => (false, r)
    | _ => (false, s)
    end in
  let '(ip, _, rest) := read_digits 0%Z O body in
  let '(m, k) :=
    match rest with
    | String "." r => let '(m, k, _) := read_digits ip O r in (m, k)
    | _ => (ip, O)
    end in
  let v := Qmake m (pow10 k) in
  if neg then Qopp v else v.

(** [a > b] and [a <= b] on numbers. *)
Definition Qgtb (a b : Q) : bool := negb (Qle_bool a b).
Definition Qleb (a b : Q) : bool := Qle_bool a b.

(** ** [os.path] *)

(** [(s[:i], s[i:])] for [i = s.rfind(c)], when [c] occurs in [s]. *)
Fixpoint rsplit_at (c : ascii) (s : string) : option (string * string) :=
  match s with
  | EmptyString => None
  | String d r =>
      match rsplit_at c r with
      | Some (a, b) => Some (String d a, b)
      | None => if Ascii.eqb c d then Some (EmptyString, s) else None
      end
  end.

Fixpoint all_chars (c : ascii) (s : string) : bool :=
  match s with
  | EmptyString => true
  | String d r => Ascii.eqb c d && all_chars c r
  end.

(** [s.rstrip('/')] *)
Fixpoint rstrip_sep (s : string) : string :=
  match s with
  | EmptyString => EmptyString
  | String c r =>
      match rstrip_sep r with
      | EmptyString => if Ascii.eqb "/" c then EmptyString else String c EmptyString
      | r' => String c r'
      end
  end.

Definition endswith_sep (s : string) : bool :=
  match rsplit_at "/" s with
  | Some (_, String _ EmptyString) => true
  | _ => false
  end.

Definition os_path_dirname (p : string) : string :=
  match rsplit_at "/" p with
  | None => EmptyString
  | Some (a, _) =>
      let head := a ++ "/" in
      if all_chars "/" head then head else rstrip_sep head
  end.

Definition os_path_join (a b : string) : string :=
  if startswith b "/" then b
  else if is_empty a || endswith_sep a then a ++ b
  else a ++ "/" ++ b.

Definition os_path_basename (p : string) : string :=
  match rsplit_at "/" p with
  | Some (_, String _ b) => b
  | _ => p
  end.

(** [os.path.splitext(p)[1]] *)
Definition splitext_ext (p : string) : string :=
  match rsplit_at "." (os_path_basename p) with
  | Some (stem, ext) => if all_chars "." stem then EmptyString else ext
  | None => EmptyString
  end.

(** What a path denotes when the checker looks at it: nothing, something
    that exists but whose reading raises (the text of the exception is
    kept), or a text file given by what [readlines()] returns. *)
Inductive file_entry : Type :=
| Missing
| Unreadable (reason : string)
| Regular (lines : list string).

(** ** The checker's state *)

(** The fields of [GCodeChecker.__init__].  [subprograms] is never read or
    written by any method and is left out; [supported_extensions] is the
    constant below. *)
Record GCodeChecker : Type := mkChecker {
  x_positions : list Q;
  y_positions : list Q;
  z_positions : list Q;
  current_x : Q;
  current_y : Q;
  current_z : Q;
  errors : list string;
  warnings : list string;
  commands : list (nat * string);
  main_programs : list string;
  program_calls : list string
}.

Definition supported_extensions : list string := [".nc"; ".txt"; ".gcode"; ".cnc"].

(** [GCodeChecker()] *)
Definition init : GCodeChecker :=
  mkChecker [] [] [] 0 0 0 [] [] [] [] [].

Definition add_error (self : GCodeChecker) (m : string) : GCodeChecker :=
  mkChecker (x_positions self) (y_positions self) (z_positions self)
    (current_x self) (current_y self) (current_z self)
    (errors self ++ [m])%list (warnings self) (commands self)
    (main_programs self) (program_calls self).

Definition add_warning (self : GCodeChecker) (m : string) : GCodeChecker :=
  mkChecker (x_positions self) (y_positions self) (z_positions self)
    (current_x self) (current_y self) (current_z self)
    (errors self) (warnings self ++ [m])%list (commands self)
    (main_programs self) (program_calls self).

Definition add_command (self : GCodeChecker) (c : nat * string) : GCodeChecker :=
  mkChecker (x_positions self) (y_positions self) (z_positions self)
    (current_x self) (current_y self) (current_z self)
    (errors self) (warnings self) (commands self ++ [c])%list
    (main_programs self) (program_calls self).

Definition add_main_program (self : GCodeChecker) (p : string) : GCodeChecker :=
  mkChecker (x_positions self) (y_positions self) (z_positions self)
    (current_x self) (current_y self) (current_z self)
    (errors self) (warnings self) (commands self)
    (main_programs self ++ [p])%list (program_calls self).

Definition add_program_call (self : GCodeChecker) (p : string) : GCodeChecker :=
  mkChecker (x_positions self) (y_positions self) (z_positions self)
    (current_x self) (current_y self) (current_z self)
    (errors self) (warnings self) (commands self)
    (main_programs self) (program_calls self ++ [p])%list.

Definition set_current (self : GCodeChecker) (x y z : Q) : GCodeChecker :=
  mkChecker (x_positions self) (y_positions self) (z_positions self)
    x y z
    (errors self) (warnings self) (commands self)
    (main_programs self) (program_calls self).

(** The three [append]s that store the current position. *)
Definition store_position (self : GCodeChecker) : GCodeChecker :=
  mkChecker (x_positions self ++ [current_x self])%list
    (y_positions self ++ [current_y self])%list
    (z_positions self ++ [current_z self])%list
    (current_x self) (current_y self) (current_z self)
    (errors self) (warnings self) (commands self)
    (main_programs self) (program_calls self).

(** The entry a successful subprogram analysis adds to
    [detected_subprograms]. *)
Record detected : Type := mkDetected {
  d_file : string;
  d_path : string;
  d_errors : nat;
  d_warnings : nat;
  d_commands : nat
}.

(** ** The methods *)

Definition from_option {A : Type} (o : option A) (d : A) : A :=
  match o with Some a => a | None => d end.

(** [parse_coordinate(line, axis)] *)
Definition parse_coordinate (line : string) (axis : ascii) : option Q :=
  match re_search (re_axis axis) (upper line) with
  | Some m => Some (float (group1 m))
  | None => None
  end.

(** [check_program_structure(line)].  The three tests that close the
    method ([%], [M99], [M30]/[M02]) only return and are not shown. *)
Definition check_program_structure (self : GCodeChecker) (line : string)
  : GCodeChecker :=
  let line_upper := strip (upper line) in
  let self :=
    if re_match re_O line_upper then
      let prog_num := group1 (from_option (re_search re_O line_upper) EmptyString) in
      if negb (mem prog_num (main_programs self))
      then add_main_program self prog_num
      else self
    else self in
  if contains "M98" line_upper && has_char "P" line_upper then
    match re_search re_P line_upper with
    | Some sub_match => add_program_call self (group1 sub_match)
    | None => self
    end
  else self.

(** [check_syntax(line)] *)
Definition check_syntax (self : GCodeChecker) (line : string)
  : bool * GCodeChecker :=
  let line := upper (strip line) in
  if is_empty line || startswith line ";" || startswith line "(" then (true, self)
  else
    let self := check_program_structure self line in
    if negb (re_match re_GM line) then
      if negb (re_match re_XYZIJKR line) && negb (startswith line "F")
         && negb (startswith line "S") && negb (startswith line "T")
         && negb (startswith line "N") && negb (re_match re_OP line)
      then (false, add_error self ("Invalid command format: " ++ line))
      else (true, self)
    else (true, self).

Definition max_travel : Q := 1000 # 1.

(** [any(axis in line.upper() for axis in ['X', 'Y', 'Z'])] *)
Definition mentions_axis (line : string) : bool :=
  existsb (fun axis => has_char axis (upper line)) ["X"; "Y"; "Z"]%char.

(** The local [main_dir] of the resolver: the directory of the main file,
    or [.] when the path has none. *)
Definition main_dir_of (main_filename : string) : string :=
  let main_dir := os_path_dirname main_filename in
  if is_empty main_dir then "." else main_dir.

Section Checker.

(** How Python prints a [float] inside an f-string. *)
Variable float_repr : Q -> string.

(** The files the checker can see. *)
Variable fs : string -> file_entry.

(** [os.path.exists(path)] *)
Definition os_path_exists (path : string) : bool :=
  match fs path with Missing => false | _ => true end.

(** [check_coordinates(line)] *)
Definition check_coordinates (self : GCodeChecker) (line : string)
  : GCodeChecker :=
  let x := parse_coordinate line "X" in
  let y := parse_coordinate line "Y" in
  let z := parse_coordinate line "Z" in
  let self := set_current self
                (from_option x (current_x self))
                (from_option y (current_y self))
                (from_option z (current_z self)) in
  let self := store_position self in
  let self :=
    if Qgtb (Qabs (current_x self)) max_travel then
      add_warning self ("X coordinate " ++ float_repr (current_x self)
                        ++ " exceeds typical travel range")
    else self in
  let self :=
    if Qgtb (Qabs (current_y self)) max_travel then
      add_warning self ("Y coordinate " ++ float_repr (current_y self)
                        ++ " exceeds typical travel range")
    else self in
  if Qgtb (Qabs (current_z self)) max_travel then
    add_warning self ("Z coordinate " ++ float_repr (current_z self)
                      ++ " exceeds typical travel range")
  else self.

(** [check_feed_rate(line)] *)
Definition check_feed_rate (self : GCodeChecker) (line : string)
  : GCodeChecker :=
  if has_char "F" (upper line) then
    match re_search re_feed (upper line) with
    | Some feed_match =>
        let feed_rate := float (group1 feed_match) in
        if Qgtb feed_rate (10000 # 1) then
          add_warning self ("High feed rate: " ++ float_repr feed_rate ++ " mm/min")
        else if Qleb feed_rate 0 then
          add_error self ("Invalid feed rate: " ++ float_repr feed_rate)
        else self
    | None => self
    end
  else self.

(** [check_file_format(filename)] *)
Definition check_file_format (self : GCodeChecker) (filename : string)
  : GCodeChecker :=
  let file_ext := splitext_ext (lower filename) in
  if negb (mem file_ext supported_extensions) then
    add_warning self ("File extension '" ++ file_ext
                      ++ "' may not be standard G-code format")
  else self.

(** The body of the loop of [analyze_file] for one line of the file. *)
Definition process_line (self : GCodeChecker) (line_num : nat) (line : string)
  : GCodeChecker :=
  let line := strip line in
  if is_empty line then self
  else
    let self := add_command self (line_num, line) in
    let self := snd (check_syntax self line) in
    let self :=
      if mentions_axis line then check_coordinates self line else self in
    check_feed_rate self line.

(** [for line_num, line in enumerate(lines, line_num): ...] *)
Fixpoint process_lines (self : GCodeChecker) (line_num : nat)
  (lines : list string) : GCodeChecker :=
  match lines with
  | [] => self
  | line :: rest => process_lines (process_line self line_num line) (S line_num) rest
  end.

(** [validate_program_structure()] *)
Definition validate_program_structure (self : GCodeChecker) : GCodeChecker :=
  let self :=
    fold_left
      (fun self call =>
         if negb (mem call (main_programs self)) then
           add_warning self ("Subprogram P" ++ call ++ " called but not defined")
         else self)
      (program_calls self) self in
  fold_left
    (fun self prog =>
       if negb (mem prog (program_calls self)) then
         add_warning self ("Subprogram O" ++ prog ++ " defined but never called")
       else self)
    (tl (main_programs self)) self.

(** [possible_names] for one call. *)
Definition possible_names (call : string) : list string :=
  [ "O" ++ call ++ ".txt";
    "O" ++ call ++ ".nc";
    "o" ++ call ++ ".txt";
    "o" ++ call ++ ".nc";
    call ++ ".txt";
    call ++ ".nc" ].

(** What the resolver does with a subprogram that was analysed with
    success: one entry in [detected_subprograms], the child's messages in
    the parent's lists, the call marked as found. *)
Definition merge_subprogram (self : GCodeChecker) (ds : list detected)
  (call name subprogram_path : string) (sub_checker : GCodeChecker)
  : GCodeChecker * list detected :=
  let ds := (ds ++ [mkDetected name subprogram_path
                      (List.length (errors sub_checker))
                      (List.length (warnings sub_checker))
                      (List.length (commands sub_checker))])%list in
  let self :=
    fold_left (fun self error => add_error self ("Subprogram " ++ name ++ ": " ++ error))
      (errors sub_checker) self in
  let self :=
    fold_left (fun self warning => add_warning self ("Subprogram " ++ name ++ ": " ++ warning))
      (warnings sub_checker) self in
  let self :=
    if mem call (program_calls self) then add_main_program self call else self in
  (self, ds).

Section Resolver.

(** [GCodeChecker().analyze_file(path)]: the recursive call, [None] when
    the call raises [RecursionError] instead of returning.  Neither the
    two loops nor the method catch the exception, so [None] passes
    through them. *)
Variable analyze : string -> option (bool * GCodeChecker).

(** [for name in possible_names: ...], left at the first existing file. *)
Fixpoint try_names (main_dir call : string) (names : list string)
  (st : GCodeChecker * list detected) : option (GCodeChecker * list detected) :=
  match names with
  | [] => Some st
  | name :: rest =>
      let subprogram_path := os_path_join main_dir name in
      if os_path_exists subprogram_path then
        match analyze subprogram_path with
        | None => None
        | Some (true, sub_checker) =>
            Some (merge_subprogram (fst st) (snd st) call name subprogram_path sub_checker)
        | Some (false, _) => Some st
        end
      else try_names main_dir call rest st
  end.

(** [for call in self.program_calls: ...] *)
Fixpoint for_calls (main_dir : string) (calls : list string)
  (st : GCodeChecker * list detected) : option (GCodeChecker * list detected) :=
  match calls with
  | [] => Some st
  | call :: rest =>
      match try_names main_dir call (possible_names call) st with
      | Some st' => for_calls main_dir rest st'
      | None => None
      end
  end.

(** What the checker and [detected_subprograms] hold when the loop over
    the calls is left, by its end or by the exception of a nested
    analysis: the call that raises has changed nothing yet, and what the
    calls before it merged stays in place. *)
Fixpoint calls_state (main_dir : string) (calls : list string)
  (st : GCodeChecker * list detected) : GCodeChecker * list detected :=
  match calls with
  | [] => st
  | call :: rest =>
      match try_names main_dir call (possible_names call) st with
      | Some st' => calls_state main_dir rest st'
      | None => st
      end
  end.

(** [auto_detect_and_analyze_subprograms(main_filename)] *)
Definition auto_detect_and_analyze_subprograms (self : GCodeChecker)
  (main_filename : string) : option (GCodeChecker * list detected) :=
  for_calls (main_dir_of main_filename) (program_calls self) (self, []).

End Resolver.

(** [str(e)] for the [RecursionError] of a call beyond the limit; the
    interpreter may name, after these words, the operation it was in. *)
Definition recursion_error : string := "maximum recursion depth exceeded".

(** [analyze_file(filename)].  [depth] is the number of nested
    activations of [analyze_file] the recursion limit leaves room for,
    this one included: with no room the call raises [RecursionError]
    ([None]); with room, the [try] encloses the loop over the lines, the
    resolver and the validation, and an exception of a nested analysis
    that comes out of the resolver is caught by [except Exception]: the
    checker keeps what it held, gets the error and the answer is
    [False]. *)
Fixpoint analyze_file (depth : nat) (self : GCodeChecker) (filename : string)
  : option (bool * GCodeChecker) :=
  match depth with
  | O => None
  | S depth' =>
      let self := check_file_format self filename in
      match fs filename with
      | Missing => Some (false, add_error self ("File not found: " ++ filename))
      | Unreadable e => Some (false, add_error self ("Error reading file: " ++ e))
      | Regular lines =>
          let self := process_lines self 1 lines in
          match auto_detect_and_analyze_subprograms
                  (analyze_file depth' init) self filename with
          | Some (self, _) => Some (true, validate_program_structure self)
          | None =>
              let self :=
                fst (calls_state (analyze_file depth' init)
                       (main_dir_of filename) (program_calls self) (self, [])) in
              Some (false, add_error self ("Error reading file: " ++ recursion_error))
          end
      end
  end.

End Checker.
(** ** Vocabulary of the statements *)

Fixpoint all_digits (s : string) : bool :=
  match s with
  | EmptyString => true
  | String c r => is_digit c && all_digits r
  end.

Definition is_sign (s : string) : bool :=
  String.eqb s "" || String.eqb s "+" || String.eqb s "-".

Definition starts_with_digit (s : string) : bool :=
  match s with
  | String c _ => is_digit c
  | EmptyString => false
  end.

Definition starts_with_fraction (s : string) : bool :=
  match s with
  | String c r => lit "." c && starts_with_digit r
  | EmptyString => false
  end.

(** [number_token num post]: [num] is a signed decimal (an optional sign,
    digits, an optional fractional part, at least one digit) and it ends
    where [post] starts: no further digit or fractional part follows. *)
Inductive number_token : string -> string -> Prop :=
| token_integer (sign ip post : string) :
    is_sign sign = true -> all_digits ip = true -> ip <> "" ->
    starts_with_digit post = false -> starts_with_fraction post = false ->
    number_token (sign ++ ip) post
| token_fraction (sign ip fd post : string) :
    is_sign sign = true -> all_digits ip = true ->
    all_digits fd = true -> fd <> "" ->
    starts_with_digit post = false ->
    number_token (sign ++ ip ++ "." ++ fd) post.

(** A signed decimal starts at the head of [s]: after an optional sign
    comes a digit, or a point and a digit. *)
Definition starts_number (s : string) : bool :=
  let body :=
    match s with
    | String c r => if one_of "+-" c then r else s
    | EmptyString => s
    end in
  starts_with_digit body || starts_with_fraction body.

(** No occurrence of the letter [axis] in [pre] has a number right after
    it, [rest] being the text that follows [pre]. *)
Fixpoint unnumbered (axis : ascii) (pre rest : string) : bool :=
  match pre with
  | EmptyString => true
  | String c pre' =>
      negb (Ascii.eqb axis c && starts_number (pre' ++ rest))
      && unnumbered axis pre' rest
  end.

(** The field of the position that belongs to an axis letter. *)
Definition position_field (axis : ascii) (self : GCodeChecker) : Q :=
  if Ascii.eqb axis "X" then current_x self
  else if Ascii.eqb axis "Y" then current_y self
  else current_z self.

Definition axis_letters : list ascii := ["X"; "Y"; "Z"]%char.

(** A checker with other diagnostics and another program registry. *)
Definition update (self : GCodeChecker) (errs warns progs : list string)
  : GCodeChecker :=
  mkChecker (x_positions self) (y_positions self) (z_positions self)
    (current_x self) (current_y self) (current_z self)
    errs warns (commands self) progs (program_calls self).

(** The messages of a subprogram as the parent reports them. *)
Definition prefixed (name : string) (msgs : list string) : list string :=
  map (fun m => "Subprogram " ++ name ++ ": " ++ m) msgs.

Definition call_warning (call : string) : string :=
  "Subprogram P" ++ call ++ " called but not defined".

Definition unused_warning (prog : string) : string :=
  "Subprogram O" ++ prog ++ " defined but never called".

Section Resolution.

Variable fs : string -> file_entry.
Variable analyze : string -> option (bool * GCodeChecker).
Variable main_dir : string.

(** The first candidate name of a call that exists in [main_dir]. *)
Definition first_existing (call : string) : option string :=
  find (fun name => os_path_exists fs (os_path_join main_dir name))
    (possible_names call).

(** The file a call resolves to and its analysis, when the file exists
    and its analysis succeeds. *)
Definition resolved (call : string) : option (string * GCodeChecker) :=
  match first_existing call with
  | Some name =>
      match analyze (os_path_join main_dir name) with
      | Some (true, sub_checker) => Some (name, sub_checker)
      | _ => None
      end
  | None => None
  end.

Definition is_resolved (call : string) : bool :=
  match resolved call with Some _ => true | None => false end.

Definition merged_errors (call : string) : list string :=
  match resolved call with
  | Some (name, sub_checker) => prefixed name (errors sub_checker)
  | None => []
  end.

Definition merged_warnings (call : string) : list string :=
  match resolved call with
  | Some (name, sub_checker) => prefixed name (warnings sub_checker)
  | None => []
  end.

Definition detected_entries (call : string) : list detected :=
  match resolved call with
  | Some (name, sub_checker) =>
      [mkDetected name (os_path_join main_dir name)
         (List.length (errors sub_checker))
         (List.length (warnings sub_checker))
         (List.length (commands sub_checker))]
  | None => []
  end.

End Resolution.

(** The checker as the resolver leaves it when every nested analysis it
    needs returns. *)
Definition resolved_state (fs : string -> file_entry)
  (analyze : string -> option (bool * GCodeChecker)) (main_dir : string)
  (self : GCodeChecker) : GCodeChecker :=
  update self
    (errors self ++ flat_map (merged_errors fs analyze main_dir) (program_calls self))
    (warnings self ++ flat_map (merged_warnings fs analyze main_dir) (program_calls self))
    (main_programs self ++ filter (is_resolved fs analyze main_dir) (program_calls self)).

(** A line that takes part in the position trace: not blank, and it
    mentions X, Y or Z. *)
Definition coordinate_line (line : string) : bool :=
  negb (is_empty (strip line)) && mentions_axis (strip line).

(** A message that is not a "called but not defined" warning. *)
Definition plain (w : string) : Prop := prefix "Subprogram P" w = false.

(** A call number as the pattern [P(\d+)] yields it starts with a digit. *)
Definition digit_led (s : string) : Prop := starts_with_digit s = true.


(** ** Sample inputs *)

(** A positional rendering of a number (sign, integer part, point and
    fraction digits): one possible [float_repr]. *)
Fixpoint fraction_digits (n : nat) (r d : Z) : string :=
  match n with
  | O => ""
  | S k =>
      if (r =? 0)%Z then ""
      else String (ascii_of_nat (48 + Z.to_nat (10 * r / d)))
             (fraction_digits k ((10 * r) mod d)%Z d)
  end.

Definition repr_decimal (q : Q) : string :=
  let n := Z.abs (Qnum q) in
  let d := Zpos (Qden q) in
  (if (Qnum q <? 0)%Z then "-" else "")
  ++ NilZero.string_of_int (Z.to_int (n / d))
  ++ "."
  ++ (if (n mod d =? 0)%Z then "0" else fraction_digits 17 (n mod d)%Z d).

Definition nl : string := String "010" "".

(** What [readlines()] returns for the text [O100\nM98 P200\nM30]. *)
Definition main_lines : list string :=
  ["O100" ++ nl; "M98 P200" ++ nl; "M30"].

(** What [readlines()] returns for the text [O200\nG1 X1\nM99]. *)
Definition sub_lines : list string :=
  ["O200" ++ nl; "G1 X1" ++ nl; "M99"].

(** A directory with the main program alone. *)
Definition fs_main_only (path : string) : file_entry :=
  if String.eqb path "main.nc" then Regular main_lines else Missing.

(** A directory with the main program and the file of subprogram 200. *)
Definition fs_with_sub (path : string) : file_entry :=
  if String.eqb path "main.nc" then Regular main_lines
  else if String.eqb path "./O200.nc" then Regular sub_lines
  else Missing.

(** A main program that calls subprogram 200 twice, next to its file. *)
Definition fs_called_twice (path : string) : file_entry :=
  if String.eqb path "main.nc"
  then Regular ["O100" ++ nl; "M98 P200" ++ nl; "M98 P200" ++ nl; "M30"]
  else if String.eqb path "./O200.nc" then Regular sub_lines
  else Missing.


(** The checker after the calls of [calls] have been merged into it. *)
Definition merged_state (fs : string -> file_entry)
  (analyze : string -> option (bool * GCodeChecker)) (main_dir : string)
  (self : GCodeChecker) (calls : list string) : GCodeChecker :=
  update self
    (errors self ++ flat_map (merged_errors fs analyze main_dir) calls)
    (warnings self ++ flat_map (merged_warnings fs analyze main_dir) calls)
    (main_programs self ++ filter (is_resolved fs analyze main_dir) calls).

(** ** Vocabulary of the further properties *)

(** The test of [check_syntax] read on the first characters of the
    trimmed, upper-cased line: nothing, a comment character, one of the
    letters that are accepted alone, or one of G, M, O, P before a digit. *)
Definition recognized (l : string) : bool :=
  match l with
  | EmptyString => true
  | String c r =>
      one_of ";(" c || one_of "XYZIJKRFSTN" c
      || (one_of "GMOP" c && starts_with_digit r)
  end.

(** A blank line or a comment. *)
Definition ignorable (line : string) : bool :=
  let l := upper (strip line) in
  is_empty l || startswith l ";" || startswith l "(".

(** A non-empty string of decimal digits. *)
Definition is_number (s : string) : bool := negb (is_empty s) && all_digits s.

(** The command records of the lines of a file, the first of which has
    the number [n]. *)
Fixpoint numbered (n : nat) (lines : list string) : list (nat * string) :=
  match lines with
  | [] => []
  | line :: rest =>
      (if is_empty (strip line) then [] else [(n, strip line)])
      ++ numbered (S n) rest
  end.

(** A checker with other command records. *)
Definition set_commands (self : GCodeChecker) (cs : list (nat * string))
  : GCodeChecker :=
  mkChecker (x_positions self) (y_positions self) (z_positions self)
    (current_x self) (current_y self) (current_z self)
    (errors self) (warnings self) cs
    (main_programs self) (program_calls self).

(** Two checkers that differ in their command records at most. *)
Definition same_but_commands (a b : GCodeChecker) : Prop :=
  set_commands a [] = set_commands b [].

(** The range warning of one axis for a position [v] on it. *)
Definition travel_warning (float_repr : Q -> string) (axis : string) (v : Q)
  : list string :=
  if Qgtb (Qabs v) max_travel
  then [axis ++ " coordinate " ++ float_repr v ++ " exceeds typical travel range"]
  else [].

(** Every character of [s] satisfies [f]. *)
Fixpoint made_of (f : ascii -> bool) (s : string) : bool :=
  match s with
  | EmptyString => true
  | String c r => f c && made_of f r
  end.

(** A main program whose subprogram calls a subprogram of its own; the
    last file has a line that the syntax check rejects. *)
Definition fs_nested (path : string) : file_entry :=
  if String.eqb path "main.nc" then Regular main_lines
  else if String.eqb path "./O200.nc"
  then Regular ["O200" ++ nl; "M98 P300" ++ nl; "M99"]
  else if String.eqb path "./O300.nc"
  then Regular ["O300" ++ nl; "HELLO" ++ nl; "M99"]
  else Missing.

(** A directory in which the first candidate of 200 cannot be read. *)
Definition fs_unreadable (path : string) : file_entry :=
  if String.eqb path "main.nc" then Regular main_lines
  else if String.eqb path "./O200.txt" then Unreadable "Is a directory"
  else if String.eqb path "./O200.nc" then Regular sub_lines
  else Missing.

(** The longest run of digits at the head of [s], and what follows it. *)
Fixpoint take_digits (s : string) : string :=
  match s with
  | String c r => if is_digit c then String c (take_digits r) else EmptyString
  | EmptyString => EmptyString
  end.

Fixpoint drop_digits (s : string) : string :=
  match s with
  | String c r => if is_digit c then drop_digits r else s
  | EmptyString => EmptyString
  end.
(** * Properties *)

(** ** Tactics *)

(** Case analysis on every test of the goal. *)
Ltac branches :=
  repeat match goal with
         | |- context [if ?b then _ else _] => destruct b
         | |- context [match ?o with Some _ => _ | None => _ end] => destruct o
         end.

(** Projections of the record out of the updates of the record. *)
Ltac fields :=
  cbn [update add_error add_warning add_command add_main_program
       add_program_call set_current store_position
       x_positions y_positions z_positions current_x current_y current_z
       errors warnings commands main_programs program_calls fst snd].

Tactic Notation "fields" "in" hyp(H) :=
  cbn [update add_error add_warning add_command add_main_program
       add_program_call set_current store_position
       x_positions y_positions z_positions current_x current_y current_z
       errors warnings commands main_programs program_calls fst snd] in H.

(** Membership in a list built by appending single messages: the message
    was there before, or it is one of the appended ones. *)
Ltac split_in H :=
  repeat (apply in_app_or in H; destruct H as [H|H]);
  [now left | try (destruct H as [<-|[]]; now right) ..].

(** ** Characters and the matcher *)

Lemma digit_not_dot (c : ascii) : is_digit c = true -> lit "." c = false.
Proof.
  intros H. unfold lit. destruct (Ascii.eqb_spec "."%char c) as [<-|]; [discriminate|reflexivity].
Qed.

Lemma digit_not_sign (c : ascii) : is_digit c = true -> one_of "+-" c = false.
Proof.
  intros H. unfold one_of, has_char.
  destruct (Ascii.eqb_spec c "+"%char) as [->|]; [discriminate|].
  destruct (Ascii.eqb_spec c "-"%char) as [->|]; [discriminate|reflexivity].
Qed.

Lemma append_assoc (a b c : string) : (a ++ b) ++ c = a ++ b ++ c.
Proof. induction a as [|x a IH]; simpl; [reflexivity|now rewrite IH]. Qed.

Lemma append_empty_r (a : string) : a ++ "" = a.
Proof. induction a as [|x a IH]; simpl; [reflexivity|now rewrite IH]. Qed.

(** The equations of the matcher, one per shape of the pattern. *)
Lemma match_here_one cls p c r :
  match_here ((cls, One) :: p) (String c r)
  = if cls c then cons_match c (match_here p r) else None.
Proof. reflexivity. Qed.

Lemma match_here_opt cls p c r :
  match_here ((cls, Opt) :: p) (String c r)
  = if cls c
    then match match_here p r with
         | Some m => Some (String c m)
         | None => match_here p (String c r)
         end
    else match_here p (String c r).
Proof. reflexivity. Qed.

Lemma match_here_opt_nil cls p :
  match_here ((cls, Opt) :: p) "" = match_here p "".
Proof. reflexivity. Qed.

Lemma match_here_star cls p s :
  match_here ((cls, Star) :: p) s = star cls (match_here p) s.
Proof. reflexivity. Qed.

Lemma match_here_plus cls p c r :
  match_here ((cls, Plus) :: p) (String c r)
  = if cls c then cons_match c (star cls (match_here p) r) else None.
Proof. reflexivity. Qed.

Lemma star_cons cls k c r :
  star cls k (String c r)
  = if cls c
    then match star cls k r with
         | Some m => Some (String c m)
         | None => k (String c r)
         end
    else k (String c r).
Proof. reflexivity. Qed.

Lemma star_nil cls k : star cls k "" = k "".
Proof. reflexivity. Qed.

(** [\d+] at the end of a pattern takes a whole run of digits. *)
Lemma star_digits_end (ds post : string) :
  all_digits ds = true -> starts_with_digit post = false ->
  star is_digit (match_here []) (ds ++ post) = Some ds.
Proof.
  intros Hds Hpost. induction ds as [|d ds IH].
  - cbn [append]. destruct post as [|c post]; [reflexivity|].
    rewrite star_cons. cbn [starts_with_digit] in Hpost. now rewrite Hpost.
  - cbn [all_digits] in Hds. apply andb_prop in Hds as [Hd Hds].
    cbn [append]. rewrite star_cons, Hd, IH; trivial.
Qed.

Lemma plus_digits_end (ds post : string) :
  all_digits ds = true -> ds <> "" -> starts_with_digit post = false ->
  match_here [(is_digit, Plus)] (ds ++ post) = Some ds.
Proof.
  intros Hds Hne Hpost. destruct ds as [|d ds]; [congruence|].
  cbn [all_digits] in Hds. apply andb_prop in Hds as [Hd Hds].
  cbn [append]. rewrite match_here_plus, Hd, star_digits_end; trivial.
Qed.

Lemma plus_digits_fails (post : string) :
  starts_with_digit post = false ->
  match_here [(is_digit, Plus)] post = None.
Proof.
  intros H. destruct post as [|c post]; [reflexivity|].
  cbn [starts_with_digit] in H. now rewrite match_here_plus, H.
Qed.

(** [\.?\d+] fails where neither a digit nor a fractional part starts. *)
Lemma fraction_fails (post : string) :
  starts_with_digit post = false -> starts_with_fraction post = false ->
  match_here [(lit ".", Opt); (is_digit, Plus)] post = None.
Proof.
  intros Hd Hf. destruct post as [|c post]; [reflexivity|].
  rewrite match_here_opt, (plus_digits_fails (String c post) Hd).
  cbn [starts_with_fraction] in Hf.
  destruct (lit "." c); [|reflexivity].
  cbn [andb] in Hf. now rewrite (plus_digits_fails post Hf).
Qed.

(** [\d*\.?\d+] on digits that no fractional part follows: the star gives
    the last digit back to [\d+]. *)
Lemma digits_integer (ip post : string) :
  all_digits ip = true -> ip <> "" ->
  starts_with_digit post = false -> starts_with_fraction post = false ->
  star is_digit (match_here [(lit ".", Opt); (is_digit, Plus)]) (ip ++ post)
  = Some ip.
Proof.
  intros Hip Hne Hd Hf. induction ip as [|d ip IH]; [congruence|].
  cbn [all_digits] in Hip. apply andb_prop in Hip as [Hdig Hip].
  cbn [append]. rewrite star_cons, Hdig.
  destruct ip as [|d' ip].
  - cbn [append].
    assert (Hpost : star is_digit (match_here [(lit ".", Opt); (is_digit, Plus)]) post = None).
    { destruct post as [|c post]; [reflexivity|].
      rewrite star_cons. cbn [starts_with_digit] in Hd. rewrite Hd.
      apply fraction_fails; trivial. }
    rewrite Hpost, match_here_opt, (digit_not_dot d Hdig).
    apply (plus_digits_end (String d "") post);
      [cbn [all_digits]; now rewrite Hdig | discriminate | assumption].
  - rewrite IH; [reflexivity|assumption|discriminate].
Qed.

(** [\d*\.?\d+] on digits, a dot and digits. *)
Lemma digits_fraction (ip fd post : string) :
  all_digits ip = true -> all_digits fd = true -> fd <> "" ->
  starts_with_digit post = false ->
  star is_digit (match_here [(lit ".", Opt); (is_digit, Plus)])
    (ip ++ "." ++ fd ++ post)
  = Some (ip ++ "." ++ fd).
Proof.
  intros Hip Hfd Hne Hd. induction ip as [|d ip IH].
  - cbn [append]. rewrite star_cons.
    change (is_digit ".") with false. cbv iota.
    rewrite match_here_opt. change (lit "." ".") with true. cbv iota.
    now rewrite plus_digits_end.
  - cbn [all_digits] in Hip. apply andb_prop in Hip as [Hdig Hip].
    cbn [append]. rewrite star_cons, Hdig.
    cbn [append] in IH. now rewrite IH.
Qed.

(** The numeral pattern matches exactly a number token. *)
Lemma match_number_token (num post : string) :
  number_token num post ->
  match_here re_signed_number (num ++ post) = Some num.
Proof.
  intros H.
  assert (Hbody : exists sign body, num = sign ++ body /\ is_sign sign = true
            /\ (forall c r, body ++ post = String c r -> one_of "+-" c = false)
            /\ star is_digit (match_here [(lit ".", Opt); (is_digit, Plus)])
                 (body ++ post) = Some body).
  { destruct H as [sign ip post Hs Hip Hne Hd Hf | sign ip fd post Hs Hip Hfd Hne Hd].
    - exists sign, ip. repeat split; trivial.
      + intros c r E. destruct ip as [|d ip]; [congruence|].
        cbn [append all_digits] in *. inversion E; subst.
        apply andb_prop in Hip as [Hc _]. now apply digit_not_sign.
      + now apply digits_integer.
    - exists sign, (ip ++ "." ++ fd). repeat split; trivial.
      + intros c r E. destruct ip as [|d ip]; cbn [append all_digits] in *;
          inversion E; subst.
        * reflexivity.
        * apply andb_prop in Hip as [Hc _]. now apply digit_not_sign.
      + rewrite append_assoc. now apply (digits_fraction ip fd post). }
  destruct Hbody as (sign & body & -> & Hs & Hfirst & Hstar).
  rewrite append_assoc.
  unfold re_signed_number.
  unfold is_sign in Hs.
  destruct (String.eqb_spec sign "") as [->|Hn1].
  - cbn [append].
    destruct (body ++ post) as [|c r] eqn:E.
    + rewrite match_here_opt_nil, match_here_star. exact Hstar.
    + rewrite match_here_opt, (Hfirst c r eq_refl), match_here_star. exact Hstar.
  - assert (Hsg : exists c, sign = String c "" /\ one_of "+-" c = true).
    { destruct (String.eqb_spec sign "+") as [->|]; [now exists "+"%char|].
      destruct (String.eqb_spec sign "-") as [->|]; [now exists "-"%char|].
      discriminate. }
    destruct Hsg as (c & -> & Hc).
    cbn [append].
    rewrite match_here_opt, Hc, match_here_star. now rewrite Hstar.
Qed.

Lemma star_no_digit k s :
  starts_with_digit s = false -> star is_digit k s = k s.
Proof.
  intros H. destruct s as [|c s]; [reflexivity|].
  cbn [starts_with_digit] in H. now rewrite star_cons, H.
Qed.

Lemma unsigned_fails (s : string) :
  starts_with_digit s = false -> starts_with_fraction s = false ->
  match_here [(is_digit, Star); (lit ".", Opt); (is_digit, Plus)] s = None.
Proof.
  intros Hd Hf. rewrite match_here_star, star_no_digit by assumption.
  now apply fraction_fails.
Qed.

(** The numeral pattern fails where no number starts. *)
Lemma no_number_fails (s : string) :
  starts_number s = false -> match_here re_signed_number s = None.
Proof.
  unfold starts_number, re_signed_number. cbv zeta. intros H.
  destruct s as [|c r].
  - apply orb_false_elim in H as [Hd Hf]. rewrite match_here_opt_nil.
    now apply unsigned_fails.
  - rewrite match_here_opt. destruct (one_of "+-" c) eqn:Hc.
    + apply orb_false_elim in H as [Hd Hf].
      rewrite (unsigned_fails r Hd Hf).
      apply unsigned_fails.
      * cbn [starts_with_digit]. destruct (is_digit c) eqn:Hdig; [|reflexivity].
        now rewrite (digit_not_sign c Hdig) in Hc.
      * cbn [starts_with_fraction]. unfold one_of, has_char in Hc. unfold lit.
        destruct (Ascii.eqb_spec "."%char c) as [<-|]; [discriminate Hc|reflexivity].
    + apply orb_false_elim in H as [Hd Hf]. now apply unsigned_fails.
Qed.

(** [re.search] passes over the occurrences of the first, literal,
    character of the axis pattern that no number follows. *)
Lemma search_skips (a : ascii) (pre s : string) :
  unnumbered a pre s = true ->
  re_search (re_axis a) (pre ++ s) = re_search (re_axis a) s.
Proof.
  intros H. induction pre as [|c pre IH]; [reflexivity|].
  cbn [unnumbered] in H. apply andb_prop in H as [Hc Hpre].
  cbn [append]. unfold re_search at 1. fold re_search.
  unfold re_axis at 1. rewrite match_here_one. unfold lit at 1.
  destruct (Ascii.eqb a c); cbn [andb negb] in Hc.
  - apply negb_true_iff in Hc. rewrite (no_number_fails _ Hc).
    cbn [cons_match option_map]. now apply IH.
  - now apply IH.
Qed.

Lemma absent_unnumbered (a : ascii) (pre s : string) :
  has_char a pre = false -> unnumbered a pre s = true.
Proof.
  intros H. induction pre as [|c pre IH]; [reflexivity|].
  cbn [has_char] in H. apply orb_false_elim in H as [Hc Hpre].
  cbn [unnumbered]. rewrite Hc. cbn [andb negb]. now apply IH.
Qed.

Lemma search_absent (a : ascii) (p : regex) (s : string) :
  has_char a s = false -> re_search ((lit a, One) :: p) s = None.
Proof.
  intros H. induction s as [|c s IH]; [reflexivity|].
  cbn [has_char] in H. apply orb_false_elim in H as [Hc Hs].
  unfold re_search. fold re_search.
  rewrite match_here_one. unfold lit at 1. rewrite Hc. now apply IH.
Qed.

Lemma parse_coordinate_token (line : string) (axis : ascii) (pre num post : string) :
  upper line = pre ++ String axis (num ++ post) ->
  unnumbered axis pre (String axis (num ++ post)) = true ->
  number_token num post ->
  parse_coordinate line axis = Some (float num).
Proof.
  intros E Hpre Htok. unfold parse_coordinate. rewrite E.
  rewrite search_skips by assumption.
  unfold re_search, re_axis. rewrite match_here_one.
  unfold lit at 1. rewrite Ascii.eqb_refl.
  now rewrite (match_number_token num post Htok).
Qed.

Lemma parse_coordinate_absent (line : string) (axis : ascii) :
  has_char axis (upper line) = false -> parse_coordinate line axis = None.
Proof.
  intros H. unfold parse_coordinate, re_axis. now rewrite search_absent.
Qed.

(** ** What each method touches *)

Section LineProperties.

Variable float_repr : Q -> string.

Lemma check_program_structure_frame self line :
  let self' := check_program_structure self line in
  x_positions self' = x_positions self /\ y_positions self' = y_positions self
  /\ z_positions self' = z_positions self
  /\ current_x self' = current_x self /\ current_y self' = current_y self
  /\ current_z self' = current_z self
  /\ errors self' = errors self /\ warnings self' = warnings self
  /\ commands self' = commands self.
Proof. unfold check_program_structure. cbv zeta. branches; repeat split. Qed.

Lemma check_syntax_frame self line :
  let self' := snd (check_syntax self line) in
  x_positions self' = x_positions self /\ y_positions self' = y_positions self
  /\ z_positions self' = z_positions self
  /\ current_x self' = current_x self /\ current_y self' = current_y self
  /\ current_z self' = current_z self
  /\ warnings self' = warnings self.
Proof.
  pose proof (check_program_structure_frame self (upper (strip line))) as H.
  cbv zeta in H. destruct H as (H1 & H2 & H3 & H4 & H5 & H6 & H7 & H8 & H9).
  unfold check_syntax. cbv zeta. branches; cbn [snd add_error x_positions y_positions
    z_positions current_x current_y current_z warnings]; repeat split; assumption.
Qed.

Lemma check_feed_rate_frame self line :
  let self' := check_feed_rate float_repr self line in
  x_positions self' = x_positions self /\ y_positions self' = y_positions self
  /\ z_positions self' = z_positions self
  /\ current_x self' = current_x self /\ current_y self' = current_y self
  /\ current_z self' = current_z self
  /\ main_programs self' = main_programs self
  /\ program_calls self' = program_calls self.
Proof. unfold check_feed_rate. cbv zeta. branches; repeat split. Qed.

Lemma check_coordinates_current self line :
  let self' := check_coordinates float_repr self line in
  current_x self' = from_option (parse_coordinate line "X") (current_x self)
  /\ current_y self' = from_option (parse_coordinate line "Y") (current_y self)
  /\ current_z self' = from_option (parse_coordinate line "Z") (current_z self).
Proof. unfold check_coordinates. cbv zeta. branches; repeat split. Qed.

Lemma check_coordinates_trace self line :
  let self' := check_coordinates float_repr self line in
  x_positions self' = (x_positions self ++ [current_x self'])%list
  /\ y_positions self' = (y_positions self ++ [current_y self'])%list
  /\ z_positions self' = (z_positions self ++ [current_z self'])%list
  /\ errors self' = errors self
  /\ main_programs self' = main_programs self
  /\ program_calls self' = program_calls self.
Proof. unfold check_coordinates. cbv zeta. branches; repeat split. Qed.

Lemma position_field_eq axis a b :
  current_x a = current_x b -> current_y a = current_y b ->
  current_z a = current_z b -> position_field axis a = position_field axis b.
Proof. intros Hx Hy Hz. unfold position_field. now rewrite Hx, Hy, Hz. Qed.

Lemma check_coordinates_field self line axis :
  In axis axis_letters ->
  position_field axis (check_coordinates float_repr self line)
  = from_option (parse_coordinate line axis) (position_field axis self).
Proof.
  intros Hin.
  destruct (check_coordinates_current self line) as (Hx & Hy & Hz).
  destruct Hin as [<-|[<-|[<-|[]]]]; unfold position_field; cbn [Ascii.eqb Bool.eqb];
    assumption.
Qed.

Lemma has_char_mentions axis line :
  In axis axis_letters -> has_char axis (upper line) = true ->
  mentions_axis line = true.
Proof.
  intros Hin H. unfold mentions_axis. apply existsb_exists. now exists axis.
Qed.

(** The position after one line of the file, in terms of the position
    before it. *)
Lemma process_line_field self n line axis :
  In axis axis_letters ->
  position_field axis (process_line float_repr self n line)
  = if negb (is_empty (strip line)) && mentions_axis (strip line)
    then from_option (parse_coordinate (strip line) axis) (position_field axis self)
    else position_field axis self.
Proof.
  intros Hin. unfold process_line. cbv zeta.
  destruct (is_empty (strip line)); [reflexivity|]. cbn [negb andb].
  set (s1 := snd (check_syntax (add_command self (n, strip line)) (strip line))).
  assert (Hs1 : forall a, position_field a s1 = position_field a self).
  { intros a. destruct (check_syntax_frame (add_command self (n, strip line)) (strip line))
      as (_ & _ & _ & Hx & Hy & Hz & _).
    now apply position_field_eq. }
  destruct (mentions_axis (strip line)).
  - destruct (check_feed_rate_frame (check_coordinates float_repr s1 (strip line)) (strip line))
      as (_ & _ & _ & Hx & Hy & Hz & _).
    rewrite (position_field_eq axis _ _ Hx Hy Hz).
    now rewrite check_coordinates_field, Hs1.
  - destruct (check_feed_rate_frame s1 (strip line)) as (_ & _ & _ & Hx & Hy & Hz & _).
    now rewrite (position_field_eq axis _ _ Hx Hy Hz).
Qed.

Lemma has_char_app c a b : has_char c (a ++ b) = has_char c a || has_char c b.
Proof.
  induction a as [|d a IH]; [reflexivity|].
  cbn [append has_char]. now rewrite IH, orb_assoc.
Qed.

(** C1. When the first occurrence of an axis letter that has a number
    right after it is followed by the signed decimal [num], processing the
    line sets that axis of the position to [num], and an axis whose letter
    is not on the line keeps its value; the lines [X10 Y5] and [X12],
    processed from the initial position, leave the position at
    (12, 5, 0). *)
Theorem axis_update_is_sticky :
  (forall self n line axis pre num post,
      In axis axis_letters ->
      upper (strip line) = pre ++ String axis (num ++ post) ->
      unnumbered axis pre (String axis (num ++ post)) = true ->
      number_token num post ->
      position_field axis (process_line float_repr self n line) = float num
      /\ forall other, In other axis_letters ->
           has_char other (upper (strip line)) = false ->
           position_field other (process_line float_repr self n line)
           = position_field other self)
  /\ (let self := process_lines float_repr init 1 ["X10 Y5"; "X12"] in
      (current_x self, current_y self, current_z self) = (12 # 1, 5 # 1, 0 # 1)).
Proof.
  split; [|vm_compute; reflexivity].
  intros self n line axis pre num post Hin E Hpre Htok.
  assert (Hne : is_empty (strip line) = false).
  { destruct (strip line); [|reflexivity]. destruct pre; discriminate E. }
  assert (Hm : mentions_axis (strip line) = true).
  { apply (has_char_mentions axis); [assumption|].
    rewrite E, has_char_app. cbn [has_char]. rewrite Ascii.eqb_refl.
    now rewrite orb_true_r. }
  split.
  - rewrite process_line_field by assumption. rewrite Hne, Hm. cbn [negb andb].
    now rewrite (parse_coordinate_token (strip line) axis pre num post).
  - intros other Hother Habs.
    rewrite process_line_field by assumption. rewrite Hne, Hm. cbn [negb andb].
    now rewrite parse_coordinate_absent.
Qed.

(** A line is ignorable when it is empty once trimmed or starts with a
    comment character. *)
Lemma ignorable_line_syntax self line :
  let l := upper (strip line) in
  is_empty l || startswith l ";" || startswith l "(" = true ->
  check_syntax self line = (true, self).
Proof. cbv zeta. intros H. unfold check_syntax. cbv zeta. now rewrite H. Qed.

Lemma blank_line_skipped self n line :
  is_empty (strip line) = true -> process_line float_repr self n line = self.
Proof. intros H. unfold process_line. cbv zeta. now rewrite H. Qed.

(** C2. The comment [; X10] passes the syntax check untouched, yet
    processing it moves X to 10 and records a trace entry, and processing
    the comment [(F0)] emits an error. *)
Theorem comment_line_is_tracked :
  check_syntax init "; X10" = (true, init)
  /\ current_x (process_line float_repr init 1 "; X10") = 10 # 1
  /\ x_positions (process_line float_repr init 1 "; X10") = [10 # 1]
  /\ errors (process_line float_repr init 1 "(F0)")
     = ["Invalid feed rate: " ++ float_repr (0 # 1)].
Proof. repeat split. Qed.

(** C3. [F0] gives one error, [F15000] one warning and [F500] neither;
    [F-5] gives no error and no warning. *)
Theorem feed_rate_diagnostics :
  (let r := process_line float_repr init 1 "F0" in
   List.length (errors r) = 1%nat /\ warnings r = [])
  /\ (let r := process_line float_repr init 1 "F-5" in
      errors r = [] /\ warnings r = [])
  /\ (let r := process_line float_repr init 1 "F15000" in
      errors r = [] /\ List.length (warnings r) = 1%nat)
  /\ (let r := process_line float_repr init 1 "F500" in
      errors r = [] /\ warnings r = []).
Proof. repeat split. Qed.

End LineProperties.

(** ** The resolver *)

Lemma update_id self : update self (errors self) (warnings self) (main_programs self) = self.
Proof. now destruct self. Qed.

Lemma fold_add_error (f : string -> string) (l : list string) :
  forall self,
    fold_left (fun self e => add_error self (f e)) l self
    = update self (errors self ++ map f l) (warnings self) (main_programs self).
Proof.
  induction l as [|e l IH]; intros self; cbn [fold_left map].
  - now rewrite app_nil_r, update_id.
  - rewrite IH. fields. now rewrite <- app_assoc.
Qed.

Lemma fold_add_warning (f : string -> string) (l : list string) :
  forall self,
    fold_left (fun self w => add_warning self (f w)) l self
    = update self (errors self) (warnings self ++ map f l) (main_programs self).
Proof.
  induction l as [|e l IH]; intros self; cbn [fold_left map].
  - now rewrite app_nil_r, update_id.
  - rewrite IH. fields. now rewrite <- app_assoc.
Qed.

Lemma merge_subprogram_spec self ds call name path sub :
  merge_subprogram self ds call name path sub
  = (update self
       (errors self ++ prefixed name (errors sub))
       (warnings self ++ prefixed name (warnings sub))
       (main_programs self ++ if mem call (program_calls self) then [call] else []),
     ds ++ [mkDetected name path (List.length (errors sub))
              (List.length (warnings sub)) (List.length (commands sub))])%list.
Proof.
  unfold merge_subprogram. cbv zeta.
  rewrite fold_add_error, fold_add_warning. unfold prefixed. fields.
  destruct (mem call (program_calls self)); fields; [reflexivity|].
  now rewrite app_nil_r.
Qed.

Section ResolverProperties.

Variable fs : string -> file_entry.
Variable analyze : string -> option (bool * GCodeChecker).
Variable main_dir : string.

(** The loop over the candidate names stops at the first one that exists;
    what follows it in the list plays no part. *)
Lemma try_names_find call names st :
  try_names fs analyze main_dir call names st
  = match find (fun name => os_path_exists fs (os_path_join main_dir name)) names with
    | None => Some st
    | Some name =>
        match analyze (os_path_join main_dir name) with
        | None => None
        | Some (true, sub_checker) =>
            Some (merge_subprogram (fst st) (snd st) call name
                    (os_path_join main_dir name) sub_checker)
        | Some (false, _) => Some st
        end
    end.
Proof.
  induction names as [|name names IH]; [reflexivity|].
  cbn [try_names find].
  destruct (os_path_exists fs (os_path_join main_dir name)); [reflexivity|apply IH].
Qed.

(** One round of the loop over the calls. *)
Lemma try_names_call self ds call st' :
  try_names fs analyze main_dir call (possible_names call) (self, ds) = Some st' ->
  mem call (program_calls self) = true ->
  st' = (update self
           (errors self ++ merged_errors fs analyze main_dir call)
           (warnings self ++ merged_warnings fs analyze main_dir call)
           (main_programs self ++ if is_resolved fs analyze main_dir call then [call] else []),
         ds ++ detected_entries fs analyze main_dir call)%list.
Proof.
  rewrite try_names_find. intros H Hmem.
  unfold merged_errors, merged_warnings, is_resolved, detected_entries, resolved,
    first_existing.
  destruct (find _ (possible_names call)) as [name|].
  - destruct (analyze (os_path_join main_dir name)) as [[[|] sub]|]; try discriminate;
      injection H as <-; cbn [fst snd].
    + now rewrite merge_subprogram_spec, Hmem.
    + now rewrite !app_nil_r, update_id.
  - injection H as <-. now rewrite !app_nil_r, update_id.
Qed.

(** The whole loop: every occurrence of a call contributes on its own. *)
Lemma for_calls_spec calls :
  forall self ds st',
    for_calls fs analyze main_dir calls (self, ds) = Some st' ->
    (forall call, In call calls -> mem call (program_calls self) = true) ->
    st' = (update self
             (errors self ++ flat_map (merged_errors fs analyze main_dir) calls)
             (warnings self ++ flat_map (merged_warnings fs analyze main_dir) calls)
             (main_programs self ++ filter (is_resolved fs analyze main_dir) calls),
           ds ++ flat_map (detected_entries fs analyze main_dir) calls)%list.
Proof.
  induction calls as [|call calls IH]; intros self ds st' H Hmem.
  - cbn [for_calls] in H. injection H as <-. cbn [flat_map filter].
    now rewrite !app_nil_r, update_id.
  - cbn [for_calls] in H.
    destruct (try_names fs analyze main_dir call (possible_names call) (self, ds))
      as [st1|] eqn:E; [|discriminate].
    apply try_names_call in E; [|apply Hmem; now left]. subst st1.
    apply IH in H; [|intros c Hc; fields; apply Hmem; now right].
    subst st'. cbn [flat_map filter]. fields.
    destruct (is_resolved fs analyze main_dir call); now rewrite <- !app_assoc.
Qed.

End ResolverProperties.

(** ** The analysis of a file *)

Lemma mem_In x l : mem x l = true <-> In x l.
Proof.
  unfold mem. rewrite existsb_exists. split.
  - intros (y & Hy & E). apply String.eqb_eq in E. now subst.
  - intros H. exists x. split; [assumption|apply String.eqb_refl].
Qed.

Lemma fold_call_warnings (l : list string) :
  forall self,
    fold_left
      (fun self call =>
         if negb (mem call (main_programs self)) then
           add_warning self ("Subprogram P" ++ call ++ " called but not defined")
         else self) l self
    = update self (errors self)
        (warnings self
         ++ map call_warning (filter (fun c => negb (mem c (main_programs self))) l))
        (main_programs self).
Proof.
  induction l as [|c l IH]; intros self; cbn [fold_left filter map].
  - now rewrite app_nil_r, update_id.
  - destruct (negb (mem c (main_programs self))); rewrite IH; fields;
      [cbn [map]; now rewrite <- app_assoc | reflexivity].
Qed.

Lemma fold_unused_warnings (l : list string) :
  forall self,
    fold_left
      (fun self prog =>
         if negb (mem prog (program_calls self)) then
           add_warning self ("Subprogram O" ++ prog ++ " defined but never called")
         else self) l self
    = update self (errors self)
        (warnings self
         ++ map unused_warning (filter (fun p => negb (mem p (program_calls self))) l))
        (main_programs self).
Proof.
  induction l as [|c l IH]; intros self; cbn [fold_left filter map].
  - now rewrite app_nil_r, update_id.
  - destruct (negb (mem c (program_calls self))); rewrite IH; fields;
      [cbn [map]; now rewrite <- app_assoc | reflexivity].
Qed.

(** The post-pass adds its two families of warnings and nothing else. *)
Lemma validate_program_structure_spec self :
  validate_program_structure self
  = update self (errors self)
      (warnings self
       ++ map call_warning
            (filter (fun c => negb (mem c (main_programs self))) (program_calls self))
       ++ map unused_warning
            (filter (fun p => negb (mem p (program_calls self))) (tl (main_programs self))))
      (main_programs self).
Proof.
  unfold validate_program_structure. cbv zeta.
  rewrite fold_call_warnings. fields. rewrite fold_unused_warnings. fields.
  now rewrite <- app_assoc.
Qed.

Section FileProperties.

Variable float_repr : Q -> string.
Variable fs : string -> file_entry.

Lemma auto_detect_spec analyze self filename st' :
  auto_detect_and_analyze_subprograms fs analyze self filename = Some st' ->
  st' = (resolved_state fs analyze (main_dir_of filename) self,
         flat_map (detected_entries fs analyze (main_dir_of filename))
           (program_calls self)).
Proof.
  unfold auto_detect_and_analyze_subprograms. intros H.
  apply for_calls_spec in H; [exact H|].
  intros call Hc. now apply mem_In.
Qed.

Lemma try_names_defined analyze dir call st :
  (forall name, first_existing fs dir call = Some name ->
                analyze (os_path_join dir name) <> None) ->
  try_names fs analyze dir call (possible_names call) st <> None.
Proof.
  intros H. rewrite try_names_find. unfold first_existing in H.
  destruct (find _ (possible_names call)) as [name|]; [|discriminate].
  specialize (H name eq_refl).
  destruct (analyze (os_path_join dir name)) as [[[|] sub]|]; congruence.
Qed.

Lemma for_calls_defined analyze dir calls :
  forall st,
    (forall call name, In call calls -> first_existing fs dir call = Some name ->
                       analyze (os_path_join dir name) <> None) ->
    for_calls fs analyze dir calls st <> None.
Proof.
  induction calls as [|call calls IH]; intros st H; [discriminate|].
  cbn [for_calls].
  destruct (try_names fs analyze dir call (possible_names call) st) as [st1|] eqn:E.
  - apply IH. intros c name Hc. apply H. now right.
  - exfalso. revert E. apply try_names_defined.
    intros name. apply H. now left.
Qed.

Lemma analyze_file_S depth self filename :
  analyze_file float_repr fs (S depth) self filename
  = let self := check_file_format self filename in
    match fs filename with
    | Missing => Some (false, add_error self ("File not found: " ++ filename))
    | Unreadable e => Some (false, add_error self ("Error reading file: " ++ e))
    | Regular lines =>
        let self := process_lines float_repr self 1 lines in
        match auto_detect_and_analyze_subprograms fs
                (analyze_file float_repr fs depth init) self filename with
        | Some (self, _) => Some (true, validate_program_structure self)
        | None =>
            let self :=
              fst (calls_state fs (analyze_file float_repr fs depth init)
                     (main_dir_of filename) (program_calls self) (self, [])) in
            Some (false, add_error self ("Error reading file: " ++ recursion_error))
        end
    end.
Proof. reflexivity. Qed.

(** An activation that has room returns: what a nested analysis raises
    is caught. *)
Lemma analyze_file_returns depth self filename :
  analyze_file float_repr fs (S depth) self filename <> None.
Proof.
  rewrite analyze_file_S. cbv zeta.
  destruct (fs filename); try discriminate.
  destruct (auto_detect_and_analyze_subprograms _ _ _ _) as [[s ds]|]; discriminate.
Qed.

Lemma merged_state_nil analyze dir self : merged_state fs analyze dir self [] = self.
Proof. unfold merged_state. cbn [flat_map filter]. now rewrite !app_nil_r, update_id. Qed.

(** The state in which an exception leaves the loop over the calls: the
    calls before the one that raised are merged, the others are not. *)
Lemma calls_state_spec analyze dir calls :
  forall self ds,
    (forall call, In call calls -> mem call (program_calls self) = true) ->
    exists pre post,
      calls = (pre ++ post)%list
      /\ calls_state fs analyze dir calls (self, ds)
         = (merged_state fs analyze dir self pre,
            ds ++ flat_map (detected_entries fs analyze dir) pre)%list.
Proof.
  induction calls as [|call calls IH]; intros self ds Hmem.
  - exists [], []. split; [reflexivity|]. cbn [calls_state flat_map].
    now rewrite merged_state_nil, app_nil_r.
  - cbn [calls_state].
    destruct (try_names fs analyze dir call (possible_names call) (self, ds))
      as [st1|] eqn:E.
    + apply try_names_call in E; [|apply Hmem; now left]. subst st1.
      match goal with
      | |- context [calls_state _ _ _ _ (?s, ?d)] =>
          destruct (IH s d) as (pre & post & -> & Hst)
      end.
      { intros c Hc. fields. apply Hmem. now right. }
      exists (call :: pre), post. split; [reflexivity|].
      rewrite Hst. unfold merged_state. cbn [flat_map filter]. fields.
      destruct (is_resolved fs analyze dir call); now rewrite <- !app_assoc.
    + exists [], (call :: calls). split; [reflexivity|]. cbn [flat_map].
      now rewrite merged_state_nil, app_nil_r.
Qed.

(** The result of analysing a readable file: the validation of the state
    the resolver returns, or, when a nested analysis met the recursion
    limit, the state in which the exception left the resolver, with the
    error of the handler. *)
Lemma analyze_file_regular depth self filename lines res :
  fs filename = Regular lines ->
  analyze_file float_repr fs (S depth) self filename = Some res ->
  let s1 := process_lines float_repr (check_file_format self filename) 1 lines in
  let analyze := analyze_file float_repr fs depth init in
  res = (true,
         validate_program_structure
           (resolved_state fs analyze (main_dir_of filename) s1))
  \/ (depth = O
      /\ exists pre post,
           program_calls s1 = (pre ++ post)%list
           /\ res = (false,
                     add_error (merged_state fs analyze (main_dir_of filename) s1 pre)
                       ("Error reading file: " ++ recursion_error))).
Proof.
  intros Hfs H s1 analyze. rewrite analyze_file_S, Hfs in H. cbv zeta in H.
  fold s1 analyze in H.
  destruct (auto_detect_and_analyze_subprograms fs analyze s1 filename)
    as [[s ds]|] eqn:E.
  - left. apply auto_detect_spec in E. injection E as -> _. now injection H as <-.
  - right. split.
    + destruct depth as [|d]; [reflexivity|]. exfalso. revert E.
      unfold auto_detect_and_analyze_subprograms. apply for_calls_defined.
      intros call name _ _. apply analyze_file_returns.
    + destruct (calls_state_spec analyze (main_dir_of filename) (program_calls s1)
                  s1 []) as (pre & post & Hcalls & Hst).
      { intros call Hc. now apply mem_In. }
      exists pre, post. split; [exact Hcalls|].
      rewrite Hst in H. cbn [fst] in H. now injection H as <-.
Qed.


(** *** The position trace *)

Lemma process_line_trace self n line :
  let self' := process_line float_repr self n line in
  let entry (v : Q) := if coordinate_line line then [v] else [] in
  x_positions self' = (x_positions self ++ entry (current_x self'))%list
  /\ y_positions self' = (y_positions self ++ entry (current_y self'))%list
  /\ z_positions self' = (z_positions self ++ entry (current_z self'))%list.
Proof.
  cbv zeta. unfold coordinate_line, process_line. cbv zeta.
  destruct (is_empty (strip line)); cbn [negb andb];
    [now rewrite !app_nil_r|].
  set (s1 := snd (check_syntax (add_command self (n, strip line)) (strip line))).
  destruct (check_syntax_frame (add_command self (n, strip line)) (strip line))
    as (Hx & Hy & Hz & _). fold s1 in Hx, Hy, Hz. fields in Hx. fields in Hy. fields in Hz.
  destruct (mentions_axis (strip line)).
  - destruct (check_feed_rate_frame float_repr
                (check_coordinates float_repr s1 (strip line)) (strip line))
      as (Fx & Fy & Fz & Cx & Cy & Cz & _).
    destruct (check_coordinates_trace float_repr s1 (strip line))
      as (Tx & Ty & Tz & _).
    rewrite Fx, Fy, Fz, Cx, Cy, Cz, Tx, Ty, Tz, Hx, Hy, Hz. now repeat split.
  - destruct (check_feed_rate_frame float_repr s1 (strip line))
      as (Fx & Fy & Fz & _).
    rewrite Fx, Fy, Fz, Hx, Hy, Hz, !app_nil_r. now repeat split.
Qed.

Lemma process_lines_trace lines :
  forall self n,
    let self' := process_lines float_repr self n lines in
    let k := List.length (filter coordinate_line lines) in
    List.length (x_positions self') = (List.length (x_positions self) + k)%nat
    /\ List.length (y_positions self') = (List.length (y_positions self) + k)%nat
    /\ List.length (z_positions self') = (List.length (z_positions self) + k)%nat.
Proof.
  induction lines as [|line lines IH]; intros self n; cbv zeta.
  - cbn. now rewrite !Nat.add_0_r.
  - cbn [process_lines filter].
    destruct (IH (process_line float_repr self n line) (S n)) as (Hx & Hy & Hz).
    destruct (process_line_trace self n line) as (Tx & Ty & Tz).
    rewrite Hx, Hy, Hz, Tx, Ty, Tz.
    destruct (coordinate_line line); rewrite !length_app; cbn [List.length];
      repeat split; lia.
Qed.

(** C8. The loop over the lines adds to the trace one entry for each
    non-blank line that mentions X, Y or Z and none for any other line, and
    when the analysis of a file returns, the trace has as many entries as
    the file has such lines. *)
Theorem trace_counts_coordinate_lines (lines : list string) :
  (forall self n,
      let self' := process_lines float_repr self n lines in
      let k := List.length (filter coordinate_line lines) in
      List.length (x_positions self') = (List.length (x_positions self) + k)%nat
      /\ List.length (y_positions self') = (List.length (y_positions self) + k)%nat
      /\ List.length (z_positions self') = (List.length (z_positions self) + k)%nat)
  /\ (forall depth filename ok r,
         fs filename = Regular lines ->
         analyze_file float_repr fs depth init filename = Some (ok, r) ->
         let k := List.length (filter coordinate_line lines) in
         List.length (x_positions r) = k
         /\ List.length (y_positions r) = k
         /\ List.length (z_positions r) = k).
Proof.
  split; [apply process_lines_trace|].
  intros depth filename ok r Hfs H. destruct depth as [|depth]; [discriminate|].
  destruct (process_lines_trace lines (check_file_format init filename) 1) as (Hx & Hy & Hz).
  assert (H0 : List.length (x_positions (check_file_format init filename)) = 0%nat
               /\ List.length (y_positions (check_file_format init filename)) = 0%nat
               /\ List.length (z_positions (check_file_format init filename)) = 0%nat).
  { unfold check_file_format. cbv zeta. now destruct (negb _). }
  destruct H0 as (Zx & Zy & Zz). rewrite Zx in Hx. rewrite Zy in Hy. rewrite Zz in Hz.
  apply (analyze_file_regular _ _ _ lines) in H; [|assumption]. cbv zeta in H.
  destruct H as [H|(_ & pre & post & _ & H)]; injection H as _ ->; cbv zeta.
  - rewrite validate_program_structure_spec. unfold resolved_state. fields.
    now rewrite Hx, Hy, Hz.
  - unfold merged_state. fields. now rewrite Hx, Hy, Hz.
Qed.

(** *** The shape of the registries and of the warnings *)

Lemma search_P_digit s m : re_search re_P s = Some m -> digit_led (group1 m).
Proof.
  induction s as [|c s IH]; [discriminate|].
  unfold re_search. fold re_search. unfold re_P at 1.
  rewrite match_here_one.
  destruct (lit "P" c); [|exact IH].
  destruct s as [|d s']; [discriminate|].
  rewrite match_here_plus. destruct (is_digit d) eqn:Hd.
  - destruct (star _ _ s') as [m'|];
      cbn [cons_match option_map]; [|exact IH].
    intros H. injection H as <-. exact Hd.
  - cbn [cons_match option_map]. exact IH.
Qed.

Lemma check_program_structure_calls self line :
  Forall digit_led (program_calls self) ->
  Forall digit_led (program_calls (check_program_structure self line)).
Proof.
  intros H. unfold check_program_structure. cbv zeta.
  destruct (contains "M98" _ && has_char "P" _).
  - destruct (re_search re_P (strip (upper line))) as [m|] eqn:E.
    + apply search_P_digit in E. branches; fields; apply Forall_app; split; auto.
    + branches; fields; assumption.
  - branches; fields; assumption.
Qed.

Lemma check_syntax_calls self line :
  Forall digit_led (program_calls self) ->
  Forall digit_led (program_calls (snd (check_syntax self line))).
Proof.
  intros H. pose proof (check_program_structure_calls self (upper (strip line)) H).
  unfold check_syntax. cbv zeta. branches; fields; assumption.
Qed.

Lemma process_line_calls self n line :
  Forall digit_led (program_calls self) ->
  Forall digit_led (program_calls (process_line float_repr self n line)).
Proof.
  intros H. unfold process_line. cbv zeta.
  destruct (is_empty (strip line)); [assumption|].
  pose proof (check_syntax_calls (add_command self (n, strip line)) (strip line) H) as H1.
  set (s1 := snd (check_syntax _ _)) in *.
  destruct (mentions_axis (strip line)).
  - destruct (check_feed_rate_frame float_repr
                (check_coordinates float_repr s1 (strip line)) (strip line))
      as (_ & _ & _ & _ & _ & _ & _ & ->).
    destruct (check_coordinates_trace float_repr s1 (strip line))
      as (_ & _ & _ & _ & _ & ->). assumption.
  - destruct (check_feed_rate_frame float_repr s1 (strip line))
      as (_ & _ & _ & _ & _ & _ & _ & ->). assumption.
Qed.

Lemma process_lines_calls lines :
  forall self n,
    Forall digit_led (program_calls self) ->
    Forall digit_led (program_calls (process_lines float_repr self n lines)).
Proof.
  induction lines as [|l lines IH]; intros self n H; [assumption|].
  cbn [process_lines]. apply IH. now apply process_line_calls.
Qed.

Lemma check_coordinates_warnings self line w :
  In w (warnings (check_coordinates float_repr self line)) ->
  In w (warnings self) \/ plain w.
Proof.
  unfold check_coordinates. cbv zeta. branches; fields; intros H;
    try (now left); split_in H.
Qed.

Lemma check_feed_rate_warnings self line w :
  In w (warnings (check_feed_rate float_repr self line)) ->
  In w (warnings self) \/ plain w.
Proof.
  unfold check_feed_rate. cbv zeta. branches; fields; intros H;
    try (now left); split_in H.
Qed.

Lemma process_line_warnings self n line :
  Forall plain (warnings self) ->
  Forall plain (warnings (process_line float_repr self n line)).
Proof.
  intros H. unfold process_line. cbv zeta.
  destruct (is_empty (strip line)); [assumption|].
  destruct (check_syntax_frame (add_command self (n, strip line)) (strip line))
    as (_ & _ & _ & _ & _ & _ & Hw). fields in Hw.
  set (s1 := snd (check_syntax _ _)) in *.
  apply Forall_forall. intros w Hin. rewrite Forall_forall in H.
  apply check_feed_rate_warnings in Hin as [Hin|]; [|assumption].
  destruct (mentions_axis (strip line)).
  - apply check_coordinates_warnings in Hin as [Hin|]; [|assumption].
    rewrite Hw in Hin. now apply H.
  - rewrite Hw in Hin. now apply H.
Qed.

Lemma process_lines_warnings lines :
  forall self n,
    Forall plain (warnings self) ->
    Forall plain (warnings (process_lines float_repr self n lines)).
Proof.
  induction lines as [|l lines IH]; intros self n H; [assumption|].
  cbn [process_lines]. apply IH. now apply process_line_warnings.
Qed.

Lemma check_file_format_plain filename :
  Forall plain (warnings (check_file_format init filename))
  /\ program_calls (check_file_format init filename) = []
  /\ main_programs (check_file_format init filename) = []
  /\ errors (check_file_format init filename) = [].
Proof.
  unfold check_file_format. cbv zeta. destruct (negb _); fields; repeat split;
    cbn [init warnings app]; repeat constructor.
Qed.

Lemma append_length (a b : string) :
  String.length (a ++ b) = (String.length a + String.length b)%nat.
Proof. induction a as [|c a IH]; cbn; [reflexivity|now rewrite IH]. Qed.

Lemma append_cancel_r (t : string) :
  forall a b, a ++ t = b ++ t -> a = b.
Proof.
  induction a as [|c a IH]; intros [|d b] H; trivial.
  - apply (f_equal String.length) in H. rewrite !append_length in H. cbn in H. lia.
  - apply (f_equal String.length) in H. rewrite !append_length in H. cbn in H. lia.
  - cbn [append] in H. injection H as -> H. f_equal. now apply IH.
Qed.

Lemma call_warning_inj a b : call_warning a = call_warning b -> a = b.
Proof.
  unfold call_warning. cbn [append]. intros H. injection H as H.
  now apply append_cancel_r in H.
Qed.

Lemma call_warning_not_plain call : ~ plain (call_warning call).
Proof.
  unfold plain, call_warning. intros H. destruct call; vm_compute in H; discriminate H.
Qed.

Lemma unused_warning_plain prog : plain (unused_warning prog).
Proof. reflexivity. Qed.

Lemma prefix_cons a s1 b s2 :
  prefix (String a s1) (String b s2) = if Ascii.eqb a b then prefix s1 s2 else false.
Proof.
  cbn [prefix]. destruct (ascii_dec a b) as [->|Hn].
  - now rewrite Ascii.eqb_refl.
  - apply Ascii.eqb_neq in Hn. now rewrite Hn.
Qed.

Lemma candidate_plain call name w :
  digit_led call -> In name (possible_names call) ->
  plain ("Subprogram " ++ name ++ ": " ++ w).
Proof.
  intros Hd Hin. unfold possible_names in Hin.
  destruct Hin as [<-|[<-|[<-|[<-|[<-|[<-|[]]]]]]]; try reflexivity;
    destruct call as [|d r]; try discriminate Hd;
    unfold plain; cbn [append]; rewrite !prefix_cons;
    (destruct (Ascii.eqb_spec "P"%char d) as [<-|]; [discriminate Hd|reflexivity]).
Qed.

Lemma first_existing_candidate dir call name :
  first_existing fs dir call = Some name -> In name (possible_names call).
Proof. intros H. now apply find_some in H. Qed.

Lemma resolved_state_warnings analyze dir self :
  Forall plain (warnings self) -> Forall digit_led (program_calls self) ->
  Forall plain (warnings (resolved_state fs analyze dir self)).
Proof.
  intros Hw Hc. unfold resolved_state. fields.
  apply Forall_app. split; [assumption|].
  apply Forall_forall. intros w Hin.
  apply in_flat_map in Hin as (call & Hcall & Hin).
  rewrite Forall_forall in Hc. specialize (Hc call Hcall).
  unfold merged_warnings, resolved in Hin.
  destruct (first_existing fs dir call) as [name|] eqn:E; [|destruct Hin].
  destruct (analyze (os_path_join dir name)) as [[[|] sub]|]; try destruct Hin.
  unfold prefixed in Hin. apply in_map_iff in Hin as (w0 & <- & _).
  apply (candidate_plain call); [assumption|].
  now apply (first_existing_candidate dir).
Qed.

(** C4. Reading a file, [analyze_file] runs the resolver on the state the
    lines left and validates the state the resolver returns (an exception
    that leaves the resolver is caught and no validation is run).  When the
    analysis returns, for each call whose file is found and analysed with
    success the number is in the program registry, the warning
    "called but not defined" is absent for it, and each error and warning
    of the child is in the parent's lists behind [Subprogram <file>: ]. *)
Theorem resolver_runs_before_validation depth filename lines :
  fs filename = Regular lines ->
  let main_dir := main_dir_of filename in
  let analyze := analyze_file float_repr fs depth init in
  analyze_file float_repr fs (S depth) init filename
  = match auto_detect_and_analyze_subprograms fs analyze
            (process_lines float_repr (check_file_format init filename) 1 lines)
            filename with
    | Some (self, _) => Some (true, validate_program_structure self)
    | None =>
        Some (false,
              add_error
                (fst (calls_state fs analyze main_dir
                        (program_calls
                           (process_lines float_repr
                              (check_file_format init filename) 1 lines))
                        (process_lines float_repr
                           (check_file_format init filename) 1 lines, [])))
                ("Error reading file: " ++ recursion_error))
    end
  /\ forall ok r,
       analyze_file float_repr fs (S depth) init filename = Some (ok, r) ->
       forall call name sub_checker,
         In call (program_calls r) ->
         first_existing fs main_dir call = Some name ->
         analyze (os_path_join main_dir name) = Some (true, sub_checker) ->
         In call (main_programs r)
         /\ ~ In ("Subprogram P" ++ call ++ " called but not defined") (warnings r)
         /\ (forall e, In e (errors sub_checker) ->
                In ("Subprogram " ++ name ++ ": " ++ e) (errors r))
         /\ (forall w, In w (warnings sub_checker) ->
                In ("Subprogram " ++ name ++ ": " ++ w) (warnings r)).
Proof.
  intros Hfs main_dir analyze. split.
  { cbn [analyze_file]. now rewrite Hfs. }
  intros ok r H call name sub Hcall Hname Hsub.
  apply (analyze_file_regular _ _ _ lines) in H; [|assumption]. cbv zeta in H.
  destruct H as [H|(Hd & _)];
    [|subst depth; unfold analyze in Hsub; discriminate Hsub].
  injection H as _ ->.
  fold main_dir analyze in Hcall |- *.
  set (s1 := process_lines float_repr (check_file_format init filename) 1 lines) in *.
  rewrite validate_program_structure_spec in Hcall |- *.
  unfold resolved_state in Hcall. fields in Hcall.
  assert (Hres : resolved fs analyze main_dir call = Some (name, sub)).
  { unfold resolved. now rewrite Hname, Hsub. }
  assert (Hmain : In call (main_programs (resolved_state fs analyze main_dir s1))).
  { unfold resolved_state. fields. apply in_or_app. right.
    apply filter_In. split; [assumption|]. unfold is_resolved. now rewrite Hres. }
  destruct (check_file_format_plain filename) as (Hplain & Hcalls & _).
  assert (Hw : Forall plain (warnings (resolved_state fs analyze main_dir s1))).
  { apply resolved_state_warnings.
    - apply process_lines_warnings. exact Hplain.
    - apply process_lines_calls. rewrite Hcalls. constructor. }
  fields. repeat split.
  - exact Hmain.
  - intros Hin. apply in_app_or in Hin as [Hin|Hin].
    + rewrite Forall_forall in Hw. apply Hw in Hin.
      now apply (call_warning_not_plain call).
    + apply in_app_or in Hin as [Hin|Hin].
      * apply in_map_iff in Hin as (c & E & Hc).
        apply call_warning_inj in E. subst c.
        apply filter_In in Hc as [_ Hc].
        apply mem_In in Hmain. now rewrite Hmain in Hc.
      * apply in_map_iff in Hin as (p & E & _).
        pose proof (unused_warning_plain p) as Hp. rewrite E in Hp.
        now apply (call_warning_not_plain call).
  - intros e He. unfold resolved_state. fields. apply in_or_app. right.
    apply in_flat_map. exists call. split; [assumption|].
    unfold merged_errors. rewrite Hres. unfold prefixed.
    apply in_map_iff. now exists e.
  - intros w Hwin. apply in_or_app. left.
    unfold resolved_state. fields. apply in_or_app. right.
    apply in_flat_map. exists call. split; [assumption|].
    unfold merged_warnings. rewrite Hres. unfold prefixed.
    apply in_map_iff. now exists w.
Qed.

(** *** A call without a file *)

Lemma try_names_unresolved analyze dir call st :
  first_existing fs dir call = None ->
  try_names fs analyze dir call (possible_names call) st = Some st.
Proof. intros H. rewrite try_names_find. unfold first_existing in H. now rewrite H. Qed.

Lemma main_lines_state filename :
  process_lines float_repr (check_file_format init filename) 1 main_lines
  = mkChecker [] [] [] 0 0 0 [] (warnings (check_file_format init filename))
      [(1%nat, "O100"); (2%nat, "M98 P200"); (3%nat, "M30")] ["100"] ["200"].
Proof.
  unfold check_file_format. cbv zeta. destruct (negb _); vm_compute; reflexivity.
Qed.

(** C5. For a main file with the lines [O100], [M98 P200], [M30] and no
    candidate file for 200, the analysis returns; the post-pass adds the
    one warning "Subprogram P200 called but not defined" to the warnings
    it finds, and the program registry is the one entry "100". *)
Theorem undefined_call_is_reported depth filename :
  fs filename = Regular main_lines ->
  first_existing fs (main_dir_of filename) "200" = None ->
  exists self,
    auto_detect_and_analyze_subprograms fs (analyze_file float_repr fs depth init)
      (process_lines float_repr (check_file_format init filename) 1 main_lines)
      filename = Some (self, [])
    /\ analyze_file float_repr fs (S depth) init filename
       = Some (true, validate_program_structure self)
    /\ warnings (validate_program_structure self)
       = (warnings self ++ ["Subprogram P200 called but not defined"])%list
    /\ warnings self = warnings (check_file_format init filename)
    /\ errors (validate_program_structure self) = []
    /\ main_programs (validate_program_structure self) = ["100"]
    /\ program_calls (validate_program_structure self) = ["200"].
Proof.
  intros Hfs Hnone.
  exists (process_lines float_repr (check_file_format init filename) 1 main_lines).
  assert (Hres : auto_detect_and_analyze_subprograms fs
                   (analyze_file float_repr fs depth init)
                   (process_lines float_repr (check_file_format init filename) 1 main_lines)
                   filename
                 = Some (process_lines float_repr (check_file_format init filename) 1
                           main_lines, [])).
  { unfold auto_detect_and_analyze_subprograms.
    rewrite main_lines_state at 1. fields. cbn [for_calls].
    now rewrite try_names_unresolved. }
  split; [exact Hres|]. split.
  { cbn [analyze_file]. rewrite Hfs. now rewrite Hres. }
  rewrite validate_program_structure_spec, main_lines_state. fields.
  repeat split.
Qed.

(** *** The candidate names *)

(** C6. A call has six candidate names, in the order [O<n>.txt],
    [O<n>.nc], [o<n>.txt], [o<n>.nc], [<n>.txt], [<n>.nc]; the first one
    that exists is the one analysed, whatever the names after it and
    whatever the outcome, and a call without an existing candidate leaves
    the state as it is. *)
Theorem six_candidates_first_existing_wins analyze main_dir call st :
  possible_names call
  = ["O" ++ call ++ ".txt"; "O" ++ call ++ ".nc";
     "o" ++ call ++ ".txt"; "o" ++ call ++ ".nc";
     call ++ ".txt"; call ++ ".nc"]
  /\ List.length (possible_names call) = 6%nat
  /\ (forall before name after,
         possible_names call = (before ++ name :: after)%list ->
         (forall n, In n before -> os_path_exists fs (os_path_join main_dir n) = false) ->
         os_path_exists fs (os_path_join main_dir name) = true ->
         try_names fs analyze main_dir call (possible_names call) st
         = match analyze (os_path_join main_dir name) with
           | None => None
           | Some (true, sub_checker) =>
               Some (merge_subprogram (fst st) (snd st) call name
                       (os_path_join main_dir name) sub_checker)
           | Some (false, _) => Some st
           end)
  /\ ((forall n, In n (possible_names call) ->
          os_path_exists fs (os_path_join main_dir n) = false) ->
       try_names fs analyze main_dir call (possible_names call) st = Some st).
Proof.
  split; [reflexivity|]. split; [reflexivity|]. split.
  - intros before name after E Hbefore Hname.
    rewrite try_names_find, E.
    assert (Hfind : find (fun n => os_path_exists fs (os_path_join main_dir n))
                      (before ++ name :: after) = Some name).
    { clear E. induction before as [|b before IH]; cbn [app find].
      - now rewrite Hname.
      - rewrite (Hbefore b) by now left.
        apply IH. intros n Hn. apply Hbefore. now right. }
    now rewrite Hfind.
  - intros Hnone. apply try_names_unresolved.
    unfold first_existing.
    destruct (find _ (possible_names call)) as [n|] eqn:E; [|reflexivity].
    apply find_some in E as [Hin Hex]. rewrite (Hnone n Hin) in Hex. discriminate.
Qed.

(** *** Every occurrence of a call *)

(** C10. When the nested analyses of the files the calls resolve to
    return, the resolver returns, and its result is made call by call
    along the call registry, duplicates included: one entry of
    [detected_subprograms] for each occurrence whose file was analysed
    with success, the prefixed errors and warnings of that file once for
    each such occurrence, and the number appended to the program registry
    once for each such occurrence, whether it is there already or not. *)
Theorem every_call_occurrence_is_resolved analyze self filename :
  let main_dir := main_dir_of filename in
  (forall call name, In call (program_calls self) ->
                     first_existing fs main_dir call = Some name ->
                     analyze (os_path_join main_dir name) <> None) ->
  exists self' ds,
    auto_detect_and_analyze_subprograms fs analyze self filename = Some (self', ds)
    /\ ds = flat_map (detected_entries fs analyze main_dir) (program_calls self)
    /\ List.length ds
       = List.length (filter (is_resolved fs analyze main_dir) (program_calls self))
    /\ errors self'
       = (errors self
          ++ flat_map (merged_errors fs analyze main_dir) (program_calls self))%list
    /\ warnings self'
       = (warnings self
          ++ flat_map (merged_warnings fs analyze main_dir) (program_calls self))%list
    /\ main_programs self'
       = (main_programs self
          ++ filter (is_resolved fs analyze main_dir) (program_calls self))%list
    /\ program_calls self' = program_calls self.
Proof.
  intros main_dir Hdef.
  destruct (auto_detect_and_analyze_subprograms fs analyze self filename)
    as [[self' ds]|] eqn:E.
  - exists self', ds. split; [reflexivity|].
    apply auto_detect_spec in E. fold main_dir in E. injection E as -> ->.
    unfold resolved_state. fields. repeat split.
    clear Hdef. induction (program_calls self) as [|c l IH]; [reflexivity|].
    cbn [flat_map filter]. rewrite length_app, IH.
    unfold detected_entries at 1. unfold is_resolved at 2.
    destruct (resolved fs analyze main_dir c) as [[name sub]|]; reflexivity.
  - exfalso. revert E. apply for_calls_defined. exact Hdef.
Qed.

End FileProperties.
(** ** Nested analyses *)

Section Termination.

Variable float_repr : Q -> string.
Variable fs : string -> file_entry.








Lemma merged_state_unresolved analyze dir self calls :
  (forall p, analyze p = None) -> merged_state fs analyze dir self calls = self.
Proof.
  intros Hnone.
  assert (Hres : forall call, resolved fs analyze dir call = None).
  { intros call. unfold resolved. destruct (first_existing fs dir call); [|reflexivity].
    now rewrite Hnone. }
  unfold merged_state.
  assert (He : forall l, flat_map (merged_errors fs analyze dir) l = []).
  { induction l as [|c l IH]; [reflexivity|]. cbn [flat_map].
    unfold merged_errors at 1. now rewrite Hres. }
  assert (Hw : forall l, flat_map (merged_warnings fs analyze dir) l = []).
  { induction l as [|c l IH]; [reflexivity|]. cbn [flat_map].
    unfold merged_warnings at 1. now rewrite Hres. }
  assert (Hm : forall l, filter (is_resolved fs analyze dir) l = []).
  { induction l as [|c l IH]; [reflexivity|]. cbn [filter].
    unfold is_resolved at 1. now rewrite Hres. }
  now rewrite He, Hw, Hm, !app_nil_r, update_id.
Qed.


End Termination.





(** ** A call made twice *)

(** C7. With the call [M98 P200] on two lines and the file [O200.nc] in
    place, the program registry ends with 200 in it twice, while the call
    registry keeps both occurrences in order. *)
Theorem resolved_call_repeats_in_registry (float_repr : Q -> string) :
  exists r,
    analyze_file float_repr fs_called_twice 2 init "main.nc" = Some (true, r)
    /\ main_programs r = ["100"; "200"; "200"]
    /\ ~ NoDup (main_programs r)
    /\ program_calls r = ["200"; "200"].
Proof.
  eexists. split; [vm_compute; reflexivity|]. fields. repeat split.
  intros Hnd. apply NoDup_cons_iff in Hnd as [_ Hnd].
  apply NoDup_cons_iff in Hnd as [Hnotin _]. apply Hnotin. now left.
Qed.

(** ** The properties on the sample inputs *)

(** On the line [n5 (x?) g1 x10.5 y-2] the first X has no number after
    it; the second sets X to 10.5. *)
Lemma axis_update_is_sticky_witness :
  number_token "10.5" " Y-2"
  /\ unnumbered "X" "N5 (X?) G1 " "X10.5 Y-2" = true
  /\ position_field "X" (process_line repr_decimal init 1 "n5 (x?) g1 x10.5 y-2")
     = float "10.5"
  /\ position_field "Z" (process_line repr_decimal init 1 "n5 (x?) g1 x10.5 y-2")
     = position_field "Z" init.
Proof.
  assert (Htok : number_token "10.5" " Y-2").
  { apply (token_fraction "" "10" "5" " Y-2"); try reflexivity. discriminate. }
  split; [exact Htok|]. split; [reflexivity|].
  destruct (proj1 (axis_update_is_sticky repr_decimal) init 1%nat
              "n5 (x?) g1 x10.5 y-2" "X"%char "N5 (X?) G1 " "10.5" " Y-2")
    as [Hx Hother].
  - now left.
  - reflexivity.
  - reflexivity.
  - exact Htok.
  - split; [exact Hx|]. apply Hother; [right; right; now left|reflexivity].
Defined.

(** The main program next to [O200.nc]: 200 is found and nothing is
    reported about it. *)
Lemma resolver_runs_before_validation_witness :
  fs_with_sub "main.nc" = Regular main_lines
  /\ match analyze_file repr_decimal fs_with_sub 2 init "main.nc" with
     | Some (_, r) =>
         In "200" (main_programs r)
         /\ ~ In "Subprogram P200 called but not defined" (warnings r)
     | None => False
     end.
Proof.
  split; [reflexivity|].
  destruct (analyze_file repr_decimal fs_with_sub 2 init "main.nc") as [[ok r]|] eqn:E.
  - destruct (resolver_runs_before_validation repr_decimal fs_with_sub 1 "main.nc"
                main_lines eq_refl) as [_ H].
    destruct (analyze_file repr_decimal fs_with_sub 1 init
                (os_path_join (main_dir_of "main.nc") "O200.nc")) as [[[|] sub]|] eqn:Es;
      try (vm_compute in Es; discriminate Es).
    destruct (H ok r E "200" "O200.nc" sub) as (H1 & H2 & _).
    + vm_compute in E. injection E as _ <-. now left.
    + reflexivity.
    + exact Es.
    + split; assumption.
  - vm_compute in E. discriminate E.
Defined.

(** The main program alone in its directory. *)
Lemma undefined_call_is_reported_witness :
  first_existing fs_main_only (main_dir_of "main.nc") "200" = None
  /\ exists self,
       analyze_file repr_decimal fs_main_only 1 init "main.nc"
       = Some (true, validate_program_structure self)
       /\ warnings (validate_program_structure self)
          = ["Subprogram P200 called but not defined"]
       /\ main_programs (validate_program_structure self) = ["100"].
Proof.
  split; [reflexivity|].
  destruct (undefined_call_is_reported repr_decimal fs_main_only 0 "main.nc"
              eq_refl eq_refl) as (self & _ & Hres & Hw & Hw0 & _ & Hm & _).
  exists self. split; [exact Hres|]. split; [|exact Hm].
  rewrite Hw, Hw0. reflexivity.
Defined.

(** Not eight candidates. *)
Lemma eight_candidates_refuted : List.length (possible_names "200") <> 8%nat.
Proof. discriminate. Qed.

(** [O200.txt] is absent and [O200.nc] is there: it is the one analysed. *)
Lemma six_candidates_first_existing_wins_witness :
  os_path_exists fs_with_sub (os_path_join "." "O200.txt") = false
  /\ os_path_exists fs_with_sub (os_path_join "." "O200.nc") = true
  /\ try_names fs_with_sub (analyze_file repr_decimal fs_with_sub 1 init) "." "200"
       (possible_names "200") (init, [])
     = match analyze_file repr_decimal fs_with_sub 1 init (os_path_join "." "O200.nc") with
       | None => None
       | Some (true, sub_checker) =>
           Some (merge_subprogram init [] "200" "O200.nc"
                   (os_path_join "." "O200.nc") sub_checker)
       | Some (false, _) => Some (init, [])
       end.
Proof.
  split; [reflexivity|]. split; [reflexivity|].
  destruct (six_candidates_first_existing_wins fs_with_sub
              (analyze_file repr_decimal fs_with_sub 1 init) "." "200" (init, []))
    as (_ & _ & H & _).
  apply (H ["O200.txt"] "O200.nc" ["o200.txt"; "o200.nc"; "200.txt"; "200.nc"]).
  - reflexivity.
  - intros n [<-|[]]. reflexivity.
  - reflexivity.
Defined.

(** The subprogram file has one line with a coordinate. *)
Lemma trace_counts_coordinate_lines_witness :
  fs_with_sub "./O200.nc" = Regular sub_lines
  /\ match analyze_file repr_decimal fs_with_sub 1 init "./O200.nc" with
     | Some (_, r) => List.length (x_positions r) = 1%nat
     | None => False
     end.
Proof.
  split; [reflexivity|].
  destruct (analyze_file repr_decimal fs_with_sub 1 init "./O200.nc") as [[ok r]|] eqn:E.
  - destruct (proj2 (trace_counts_coordinate_lines repr_decimal fs_with_sub sub_lines)
                1%nat "./O200.nc" ok r eq_refl E) as (Hx & _).
    exact Hx.
  - vm_compute in E. discriminate E.
Defined.




(** Two calls of 200: two analyses, two entries in the registry. *)
Lemma every_call_occurrence_is_resolved_witness :
  exists self' ds,
    auto_detect_and_analyze_subprograms fs_called_twice
      (analyze_file repr_decimal fs_called_twice 1 init)
      (add_program_call (add_program_call init "200") "200") "main.nc"
    = Some (self', ds)
    /\ List.length ds = 2%nat
    /\ main_programs self' = ["200"; "200"].
Proof.
  destruct (every_call_occurrence_is_resolved fs_called_twice
              (analyze_file repr_decimal fs_called_twice 1 init)
              (add_program_call (add_program_call init "200") "200") "main.nc")
    as (self' & ds & Hres & _ & Hlen & _ & _ & Hmain & _).
  - intros call name Hin Hfe.
    assert (Hcall : call = "200").
    { vm_compute in Hin. destruct Hin as [<-|[<-|[]]]; reflexivity. }
    subst call. vm_compute in Hfe. injection Hfe as <-.
    vm_compute. discriminate.
  - exists self', ds. split; [exact Hres|]. split.
    + rewrite Hlen. reflexivity.
    + rewrite Hmain. reflexivity.
Defined.

(** * Further properties *)

(** ** The syntax check *)

Lemma prefix_nil (s : string) : prefix "" s = true.
Proof. now destruct s. Qed.

Lemma star_end_total cls s : star cls (match_here []) s <> None.
Proof.
  induction s as [|c s IH]; [discriminate|].
  rewrite star_cons. destruct (cls c); [|discriminate].
  destruct (star _ _ s); [discriminate|contradiction].
Qed.

Lemma re_match_letter cls c r : re_match [(cls, One)] (String c r) = cls c.
Proof. unfold re_match. rewrite match_here_one. now destruct (cls c). Qed.

Lemma re_match_letter_digits cls c r :
  re_match [(cls, One); (is_digit, Plus)] (String c r)
  = cls c && starts_with_digit r.
Proof.
  unfold re_match. rewrite match_here_one. destruct (cls c); [|reflexivity].
  destruct r as [|d r]; [reflexivity|].
  rewrite match_here_plus. cbn [starts_with_digit andb].
  destruct (is_digit d); [|reflexivity].
  pose proof (star_end_total is_digit r) as H.
  destruct (star _ _ r); [reflexivity|contradiction].
Qed.

Lemma accepted_first_characters c (d : bool) :
  (Ascii.eqb ";" c || false) || (Ascii.eqb "(" c || false)
  || negb (negb (one_of "GM" c && d)
           && (negb (one_of "XYZIJKR" c) && negb (Ascii.eqb "F" c || false)
               && negb (Ascii.eqb "S" c || false) && negb (Ascii.eqb "T" c || false)
               && negb (Ascii.eqb "N" c || false) && negb (one_of "OP" c && d)))
  = one_of ";(" c || one_of "XYZIJKRFSTN" c || (one_of "GMOP" c && d).
Proof.
  destruct c as [[] [] [] [] [] [] [] []]; destruct d; reflexivity.
Qed.

Section FurtherLineProperties.

Variable float_repr : Q -> string.

(** X1. [check_syntax] accepts a line exactly when, trimmed and
    upper-cased, it is empty, starts with [;] or [(], starts with one of
    X Y Z I J K R F S T N, or starts with G, M, O or P before a digit;
    it adds the one error [Invalid command format: <line>] on any other
    line and never another message. *)
Theorem check_syntax_decides_on_first_characters self line :
  let l := upper (strip line) in
  fst (check_syntax self line) = recognized l
  /\ errors (snd (check_syntax self line))
     = (errors self
        ++ if recognized l then [] else [("Invalid command format: " ++ l)%string])%list
  /\ warnings (snd (check_syntax self line)) = warnings self.
Proof.
  cbv zeta.
  destruct (check_syntax_frame self line) as (_ & _ & _ & _ & _ & _ & Hw).
  split; [|split; [|exact Hw]].
  - unfold check_syntax. cbv zeta.
    destruct (upper (strip line)) as [|c r]; [reflexivity|].
    unfold startswith, re_GM, re_XYZIJKR, re_OP.
    rewrite !prefix_cons, !prefix_nil, !re_match_letter_digits, re_match_letter.
    cbn [is_empty orb recognized].
    rewrite <- (accepted_first_characters c (starts_with_digit r)).
    destruct (Ascii.eqb ";" c); [reflexivity|].
    destruct (Ascii.eqb "(" c); [reflexivity|]. cbn [orb].
    destruct (negb (one_of "GM" c && starts_with_digit r)); [|reflexivity].
    cbn [andb negb].
    now destruct (negb (one_of "XYZIJKR" c) && _ && _ && _ && _ && _).
  - destruct (check_program_structure_frame self (upper (strip line)))
      as (_ & _ & _ & _ & _ & _ & He & _).
    unfold check_syntax. cbv zeta.
    destruct (upper (strip line)) as [|c r]; [cbn; now rewrite app_nil_r|].
    unfold startswith, re_GM, re_XYZIJKR, re_OP.
    rewrite !prefix_cons, !prefix_nil, !re_match_letter_digits, re_match_letter.
    cbn [is_empty orb recognized].
    rewrite <- (accepted_first_characters c (starts_with_digit r)).
    destruct (Ascii.eqb ";" c); [cbn; now rewrite app_nil_r|].
    destruct (Ascii.eqb "(" c); [cbn; now rewrite app_nil_r|]. cbn [orb].
    destruct (negb (one_of "GM" c && starts_with_digit r));
      [|cbn [negb andb snd]; now rewrite He, app_nil_r].
    cbn [andb negb].
    destruct (negb (one_of "XYZIJKR" c) && _ && _ && _ && _ && _);
      cbn [negb snd]; fields; now rewrite He, ?app_nil_r.
Qed.

(** ** Trimming *)

Lemma lstrip_head s :
  lstrip s = "" \/ exists c r, lstrip s = String c r /\ is_space c = false.
Proof.
  induction s as [|c s IH]; [now left|].
  cbn [lstrip]. destruct (is_space c) eqn:E; [exact IH|].
  right. now exists c, s.
Qed.

Lemma rstrip_cons c r :
  is_space c = false -> rstrip (String c r) = String c (rstrip r).
Proof. intros H. cbn [rstrip]. rewrite H. now destruct (rstrip r). Qed.

Lemma rstrip_step c r :
  rstrip (String c r)
  = match rstrip r with
    | EmptyString => if is_space c then EmptyString else String c EmptyString
    | r' => String c r'
    end.
Proof. reflexivity. Qed.

Lemma rstrip_idempotent s : rstrip (rstrip s) = rstrip s.
Proof.
  induction s as [|c s IH]; [reflexivity|].
  rewrite rstrip_step. destruct (rstrip s) as [|d t] eqn:E.
  - destruct (is_space c) eqn:Hc; [reflexivity|]. cbn [rstrip]. now rewrite Hc.
  - rewrite rstrip_step, IH. reflexivity.
Qed.

Lemma strip_idempotent s : strip (strip s) = strip s.
Proof.
  unfold strip. destruct (lstrip_head s) as [->|(c & r & -> & Hc)]; [reflexivity|].
  rewrite (rstrip_cons c r Hc). cbn [lstrip]. rewrite Hc.
  rewrite <- (rstrip_cons c r Hc). apply rstrip_idempotent.
Qed.

(** ** Comments and blank lines *)

Lemma check_syntax_registries self line :
  (main_programs (snd (check_syntax self line)) = main_programs self
   /\ program_calls (snd (check_syntax self line)) = program_calls self)
  \/ (main_programs (snd (check_syntax self line))
      = main_programs (check_program_structure self (upper (strip line)))
      /\ program_calls (snd (check_syntax self line))
         = program_calls (check_program_structure self (upper (strip line)))).
Proof.
  unfold check_syntax. cbv zeta. branches; cbn [snd]; fields; auto.
Qed.

Lemma process_line_registries self n line :
  let self' := process_line float_repr self n line in
  main_programs self' = main_programs (snd (check_syntax self (strip line)))
  /\ program_calls self' = program_calls (snd (check_syntax self (strip line)))
  \/ main_programs self' = main_programs self
     /\ program_calls self' = program_calls self.
Proof.
  cbv zeta. unfold process_line. cbv zeta.
  destruct (is_empty (strip line)); [now right|]. left.
  assert (Hc : forall s,
             main_programs (snd (check_syntax (add_command s (n, strip line)) (strip line)))
             = main_programs (snd (check_syntax s (strip line)))
             /\ program_calls (snd (check_syntax (add_command s (n, strip line)) (strip line)))
                = program_calls (snd (check_syntax s (strip line)))).
  { intros s. unfold check_syntax, check_program_structure. cbv zeta. fields.
    branches; cbn [snd]; fields; auto. }
  destruct (Hc self) as [<- <-].
  set (s1 := snd (check_syntax _ _)).
  destruct (mentions_axis (strip line)).
  - destruct (check_feed_rate_frame float_repr
                (check_coordinates float_repr s1 (strip line)) (strip line))
      as (_ & _ & _ & _ & _ & _ & -> & ->).
    destruct (check_coordinates_trace float_repr s1 (strip line))
      as (_ & _ & _ & _ & -> & ->). now split.
  - destruct (check_feed_rate_frame float_repr s1 (strip line))
      as (_ & _ & _ & _ & _ & _ & -> & ->). now split.
Qed.

(** X2. A blank line or a comment leaves both registries as they are: a
    program marker or a call written inside a comment is not recorded. *)
Theorem ignorable_line_registers_nothing self n line :
  ignorable line = true ->
  main_programs (process_line float_repr self n line) = main_programs self
  /\ program_calls (process_line float_repr self n line) = program_calls self.
Proof.
  intros H. destruct (process_line_registries self n line) as [[-> ->]|]; [|assumption].
  rewrite ignorable_line_syntax; [now split|].
  cbv zeta. rewrite strip_idempotent. exact H.
Qed.

(** ** The registries along the lines *)

Lemma check_program_structure_registries self line :
  let l := strip (upper line) in
  main_programs (check_program_structure self line)
  = (main_programs self
     ++ if re_match re_O l
        then let p := group1 (from_option (re_search re_O l) "") in
             if mem p (main_programs self) then [] else [p]
        else [])%list
  /\ program_calls (check_program_structure self line)
     = (program_calls self
        ++ if contains "M98" l && has_char "P" l
           then match re_search re_P l with
                | Some m => [group1 m]
                | None => []
                end
           else [])%list.
Proof.
  cbv zeta. unfold check_program_structure. cbv zeta.
  destruct (re_match re_O _); [destruct (mem _ (main_programs self))|];
    destruct (contains "M98" _ && has_char "P" _);
    try destruct (re_search re_P _); fields; cbn [negb];
    now rewrite ?app_nil_r.
Qed.

(** A property of the two registries that [check_program_structure]
    keeps is kept by the loop over the lines. *)
Lemma registries_invariant (P : list string -> list string -> Prop) :
  (forall s l, P (main_programs s) (program_calls s) ->
               P (main_programs (check_program_structure s l))
                 (program_calls (check_program_structure s l))) ->
  forall lines self n,
    P (main_programs self) (program_calls self) ->
    P (main_programs (process_lines float_repr self n lines))
      (program_calls (process_lines float_repr self n lines)).
Proof.
  intros Hstep. induction lines as [|line lines IH]; intros self n H; [assumption|].
  cbn [process_lines]. apply IH.
  destruct (process_line_registries self n line) as [[-> ->]|[-> ->]]; [|assumption].
  destruct (check_syntax_registries self (strip line)) as [[-> ->]|[-> ->]];
    [assumption|now apply Hstep].
Qed.

Lemma NoDup_snoc (l : list string) (x : string) :
  NoDup l -> ~ In x l -> NoDup (l ++ [x]).
Proof.
  induction 1 as [|y l Hy Hl IH]; intros Hx; cbn [app].
  - constructor; [intros []|constructor].
  - constructor.
    + intros Hin. apply in_app_or in Hin as [Hin|[->|[]]]; [now apply Hy|].
      apply Hx. now left.
    + apply IH. intros Hin. apply Hx. now right.
Qed.

(** X3. The loop over the lines keeps the program registry free of
    duplicates: an [O] line whose number is registered already adds
    nothing. *)
Theorem lines_keep_registry_duplicate_free lines self n :
  NoDup (main_programs self) ->
  NoDup (main_programs (process_lines float_repr self n lines)).
Proof.
  apply (registries_invariant (fun mp _ => NoDup mp)).
  intros s l H.
  destruct (check_program_structure_registries s l) as [-> _]. cbv zeta.
  destruct (re_match re_O _); [|now rewrite app_nil_r].
  destruct (mem _ (main_programs s)) eqn:E; [now rewrite app_nil_r|].
  apply NoDup_snoc; [assumption|].
  intros Hin. apply mem_In in Hin. congruence.
Qed.

(** *** Numbers *)

Lemma star_digits_text s :
  forall m, star is_digit (match_here []) s = Some m -> all_digits m = true.
Proof.
  induction s as [|c s IH]; intros m H.
  - cbn in H. now injection H as <-.
  - rewrite star_cons in H. destruct (is_digit c) eqn:Hc.
    + destruct (star _ _ s) as [m'|] eqn:E.
      * injection H as <-. cbn [all_digits]. now rewrite Hc, (IH m').
      * cbn in H. now injection H as <-.
    + cbn in H. now injection H as <-.
Qed.

Lemma match_letter_digits a s m :
  match_here [(lit a, One); (is_digit, Plus)] s = Some m ->
  is_number (group1 m) = true.
Proof.
  destruct s as [|c s]; [discriminate|].
  rewrite match_here_one. destruct (lit a c); [|discriminate].
  destruct s as [|d s]; [discriminate|].
  rewrite match_here_plus. destruct (is_digit d) eqn:Hd; [|discriminate].
  destruct (star _ _ s) as [m'|] eqn:E; [|discriminate].
  cbn [cons_match option_map]. intros H. injection H as <-.
  unfold is_number. cbn [group1 is_empty negb all_digits andb].
  now rewrite Hd, (star_digits_text s m').
Qed.

Lemma search_letter_digits a s m :
  re_search [(lit a, One); (is_digit, Plus)] s = Some m ->
  is_number (group1 m) = true.
Proof.
  induction s as [|c s IH]; [discriminate|].
  unfold re_search. fold re_search.
  destruct (match_here _ (String c s)) as [m'|] eqn:E; [|exact IH].
  intros H. injection H as <-. exact (match_letter_digits a (String c s) m' E).
Qed.

Lemma match_then_search p s :
  re_match p s = true -> re_search p s = match_here p s.
Proof.
  unfold re_match. destruct s; cbn [re_search]; now destruct (match_here p _).
Qed.

Lemma check_program_structure_numbers s l :
  Forall (fun x => is_number x = true) (main_programs s)
  /\ Forall (fun x => is_number x = true) (program_calls s) ->
  Forall (fun x => is_number x = true) (main_programs (check_program_structure s l))
  /\ Forall (fun x => is_number x = true) (program_calls (check_program_structure s l)).
Proof.
  intros [Hm Hc].
  destruct (check_program_structure_registries s l) as [-> ->]. cbv zeta. split.
  - apply Forall_app. split; [assumption|].
    destruct (re_match re_O _) eqn:E; [|constructor].
    destruct (mem _ _); constructor; [|constructor].
    rewrite (match_then_search _ _ E).
    unfold re_match in E. destruct (match_here re_O _) as [m|] eqn:Em; [|discriminate].
    cbn [from_option]. exact (match_letter_digits "O"%char _ m Em).
  - apply Forall_app. split; [assumption|].
    destruct (contains _ _ && _); [|constructor].
    destruct (re_search re_P _) as [m|] eqn:E; constructor; [|constructor].
    exact (search_letter_digits "P"%char _ m E).
Qed.

(** ** The range check *)

Lemma if_add_warning (b : bool) s m :
  (if b then add_warning s m else s)
  = update s (errors s) (warnings s ++ if b then [m] else []) (main_programs s).
Proof. destruct b; [reflexivity|]. now rewrite app_nil_r, update_id. Qed.

(** X5. [check_coordinates] never adds an error, and it adds one warning
    for each of X, Y, Z, in this order, on which the position after the
    update is beyond 1000 in absolute value, whether the line mentions
    the axis or not: an axis left beyond the range is reported again by
    every later line that mentions any axis. *)
Theorem range_check_reports_every_axis_out_of_range self line :
  let self' := check_coordinates float_repr self line in
  errors self' = errors self
  /\ warnings self'
     = (warnings self
        ++ travel_warning float_repr "X" (current_x self')
        ++ travel_warning float_repr "Y" (current_y self')
        ++ travel_warning float_repr "Z" (current_z self'))%list
  /\ (has_char "X" (upper line) = false ->
      Qgtb (Qabs (current_x self)) max_travel = true ->
      In ("X coordinate " ++ float_repr (current_x self)
          ++ " exceeds typical travel range") (warnings self')).
Proof.
  cbv zeta.
  assert (Hw : warnings (check_coordinates float_repr self line)
               = (warnings self
                  ++ travel_warning float_repr "X"
                       (current_x (check_coordinates float_repr self line))
                  ++ travel_warning float_repr "Y"
                       (current_y (check_coordinates float_repr self line))
                  ++ travel_warning float_repr "Z"
                       (current_z (check_coordinates float_repr self line)))%list).
  { destruct (check_coordinates_current float_repr self line) as (-> & -> & ->).
    unfold check_coordinates, travel_warning. cbv zeta.
    rewrite !if_add_warning. fields. now rewrite <- !app_assoc. }
  split; [|split; [exact Hw|]].
  - now destruct (check_coordinates_trace float_repr self line) as (_ & _ & _ & -> & _).
  - intros Habs Hout. rewrite Hw.
    destruct (check_coordinates_current float_repr self line) as (-> & _ & _).
    rewrite (parse_coordinate_absent line "X" Habs). cbn [from_option].
    apply in_or_app. right. apply in_or_app. left.
    unfold travel_warning. rewrite Hout. now left.
Qed.

(** ** The feed rate *)

Lemma made_of_weaken (f g : ascii -> bool) s :
  (forall c, f c = true -> g c = true) -> made_of f s = true -> made_of g s = true.
Proof.
  intros Hfg. induction s as [|c s IH]; [reflexivity|].
  cbn [made_of]. intros H. apply andb_prop in H as [Hc Hs].
  now rewrite (Hfg c Hc), IH.
Qed.

Lemma star_made_of cls (k : string -> option string) (f : ascii -> bool) :
  (forall c, cls c = true -> f c = true) ->
  (forall s m, k s = Some m -> made_of f m = true) ->
  forall s m, star cls k s = Some m -> made_of f m = true.
Proof.
  intros Hcls Hk. induction s as [|c s IH]; intros m H.
  - now apply (Hk "").
  - rewrite star_cons in H. destruct (cls c) eqn:Hc; [|now apply (Hk (String c s))].
    destruct (star cls k s) as [m'|] eqn:E; [|now apply (Hk (String c s))].
    injection H as <-. cbn [made_of].
    apply andb_true_intro. split; [now apply Hcls|now apply IH].
Qed.

(** The text a pattern matches is made of characters of its classes. *)
Lemma match_made_of (p : regex) :
  forall s m, match_here p s = Some m ->
              made_of (fun c => existsb (fun it => fst it c) p) m = true.
Proof.
  induction p as [|[cls q] p IH]; intros s m H.
  - cbn in H. now injection H as <-.
  - assert (Htail : forall s m, match_here p s = Some m ->
              made_of (fun c => existsb (fun it => fst it c) ((cls, q) :: p)) m = true).
    { intros s0 m0 H0. apply (made_of_weaken (fun c => existsb (fun it => fst it c) p));
        [|now apply (IH s0)].
      intros c Hc. cbn [existsb]. now rewrite Hc, orb_true_r. }
    assert (Hhead : forall c, cls c = true ->
              existsb (fun it => fst it c) ((cls, q) :: p) = true).
    { intros c Hc. cbn [existsb fst]. now rewrite Hc. }
    destruct q.
    + destruct s as [|c s]; [discriminate|]. rewrite match_here_one in H.
      destruct (cls c) eqn:Hc; [|discriminate].
      destruct (match_here p s) as [m'|] eqn:E; [|discriminate].
      cbn in H. injection H as <-. cbn [made_of].
      apply andb_true_intro. split; [now apply Hhead|now apply (Htail s)].
    + destruct s as [|c s]; [now apply (Htail "")|]. rewrite match_here_opt in H.
      destruct (cls c) eqn:Hc; [|now apply (Htail (String c s))].
      destruct (match_here p s) as [m'|] eqn:E; [|now apply (Htail (String c s))].
      injection H as <-. cbn [made_of].
      apply andb_true_intro. split; [now apply Hhead|now apply (Htail s)].
    + rewrite match_here_star in H.
      now apply (star_made_of cls (match_here p) _ Hhead Htail s).
    + destruct s as [|c s]; [discriminate|]. rewrite match_here_plus in H.
      destruct (cls c) eqn:Hc; [|discriminate].
      destruct (star cls (match_here p) s) as [m'|] eqn:E; [|discriminate].
      cbn in H. injection H as <-. cbn [made_of].
      apply andb_true_intro. split; [now apply Hhead|].
      now apply (star_made_of cls (match_here p) _ Hhead Htail s).
Qed.

Lemma search_made_of (p : regex) s m :
  re_search p s = Some m ->
  made_of (fun c => existsb (fun it => fst it c) p) m = true.
Proof.
  induction s as [|c s IH]; unfold re_search; fold re_search.
  - destruct (match_here p "") as [m'|] eqn:E; [|discriminate].
    intros H. injection H as <-. now apply (match_made_of p "").
  - destruct (match_here p (String c s)) as [m'|] eqn:E; [|exact IH].
    intros H. injection H as <-. now apply (match_made_of p (String c s)).
Qed.

Lemma read_digits_nonnegative s :
  forall acc n, (0 <= acc)%Z -> (0 <= fst (fst (read_digits acc n s)))%Z.
Proof.
  induction s as [|c s IH]; intros acc n H; [assumption|].
  cbn [read_digits]. destruct (is_digit c); [|assumption].
  apply IH. unfold digit_value. lia.
Qed.

Lemma Qmake_nonnegative (m : Z) (d : positive) : (0 <= m)%Z -> 0 <= Qmake m d.
Proof. intros H. unfold Qle. cbn. lia. Qed.

(** The value read after the sign is not negative. *)
Lemma float_body_nonnegative (body : string) :
  0 <= (let '(ip, _, rest) := read_digits 0%Z O body in
        let '(m, k) :=
          match rest with
          | String "." r => let '(m, k, _) := read_digits ip O r in (m, k)
          | _ => (ip, O)
          end in
        Qmake m (pow10 k)).
Proof.
  pose proof (read_digits_nonnegative body 0%Z O (Z.le_refl 0)) as Hip.
  destruct (read_digits 0 0 body) as [[ip n0] rest]. cbn [fst] in Hip.
  destruct rest as [|d r]; [now apply Qmake_nonnegative|].
  pose proof (read_digits_nonnegative r ip O Hip) as Hm.
  destruct (read_digits ip 0 r) as [[m k] rest']. cbn [fst] in Hm.
  destruct d as [[] [] [] [] [] [] [] []]; now apply Qmake_nonnegative.
Qed.

(** A numeral without a sign denotes no negative number. *)
Lemma float_unsigned_nonnegative s :
  made_of (fun c => is_digit c || lit "." c) s = true -> 0 <= float s.
Proof.
  intros H. destruct s as [|c s]; [exact (float_body_nonnegative "")|].
  cbn [made_of] in H. apply andb_prop in H as [Hc _].
  destruct c as [[] [] [] [] [] [] [] []]; try discriminate Hc;
    match goal with |- 0 <= float ?t => exact (float_body_nonnegative t) end.
Qed.

Lemma search_one_tail cls (p : regex) s m :
  re_search ((cls, One) :: p) s = Some m ->
  exists c r s', m = String c r /\ match_here p s' = Some r.
Proof.
  induction s as [|c s IH]; [discriminate|].
  unfold re_search. fold re_search. rewrite match_here_one.
  destruct (cls c); [|exact IH].
  destruct (match_here p s) as [r|] eqn:E; cbn [cons_match option_map]; [|exact IH].
  intros H. injection H as <-. now exists c, r, s.
Qed.

Lemma feed_value_nonnegative s m :
  re_search re_feed s = Some m -> 0 <= float (group1 m).
Proof.
  intros H. apply search_one_tail in H as (c & r & s' & -> & H).
  cbn [group1]. apply float_unsigned_nonnegative.
  apply match_made_of in H. revert H. apply made_of_weaken.
  intros d Hd. cbn [existsb fst] in Hd.
  destruct (is_digit d); [reflexivity|]. cbn [orb] in *.
  destruct (lit "." d); [reflexivity|discriminate Hd].
Qed.

(** X6. [check_feed_rate] adds at most one message.  The error
    [Invalid feed rate] is added only for a feed value equal to zero: the
    pattern reads no sign, so no negative feed rate is ever seen, and a
    feed word with a sign is passed over in silence. *)
Theorem feed_rate_error_only_for_zero self line :
  let self' := check_feed_rate float_repr self line in
  (errors self' = errors self
   /\ (warnings self' = warnings self
       \/ exists v, 10000 # 1 < v
                    /\ warnings self'
                       = (warnings self
                          ++ [("High feed rate: " ++ float_repr v ++ " mm/min")%string])%list))
  \/ (warnings self' = warnings self
      /\ exists v, v == 0
                   /\ errors self'
                      = (errors self
                         ++ [("Invalid feed rate: " ++ float_repr v)%string])%list).
Proof.
  cbv zeta. unfold check_feed_rate.
  destruct (has_char "F" (upper line)); [|left; split; [reflexivity|now left]].
  destruct (re_search re_feed (upper line)) as [m|] eqn:E;
    [|left; split; [reflexivity|now left]].
  cbv zeta. pose proof (feed_value_nonnegative _ _ E) as Hnn.
  unfold Qgtb, Qleb.
  destruct (Qle_bool (float (group1 m)) (10000 # 1)) eqn:Hhigh; cbn [negb].
  - destruct (Qle_bool (float (group1 m)) 0) eqn:Hzero.
    + right. split; [reflexivity|]. exists (float (group1 m)). split; [|reflexivity].
      apply Qle_bool_iff in Hzero. now apply Qle_antisym.
    + left. split; [reflexivity|now left].
  - left. split; [reflexivity|]. right. exists (float (group1 m)). split; [|reflexivity].
    apply Qnot_le_lt. intros Hle. apply Qle_bool_iff in Hle. congruence.
Qed.

(** ** The command records *)

Lemma check_syntax_commands self line :
  commands (snd (check_syntax self line)) = commands self.
Proof.
  unfold check_syntax, check_program_structure. cbv zeta. branches; reflexivity.
Qed.

Lemma check_coordinates_commands self line :
  commands (check_coordinates float_repr self line) = commands self.
Proof. unfold check_coordinates. cbv zeta. branches; reflexivity. Qed.

Lemma check_feed_rate_commands self line :
  commands (check_feed_rate float_repr self line) = commands self.
Proof. unfold check_feed_rate. cbv zeta. branches; reflexivity. Qed.

Lemma process_line_commands self n line :
  commands (process_line float_repr self n line)
  = (commands self ++ if is_empty (strip line) then [] else [(n, strip line)])%list.
Proof.
  unfold process_line. cbv zeta.
  destruct (is_empty (strip line)); [now rewrite app_nil_r|].
  rewrite check_feed_rate_commands.
  destruct (mentions_axis (strip line));
    now rewrite ?check_coordinates_commands, check_syntax_commands.
Qed.

Lemma process_lines_commands lines :
  forall self n,
    commands (process_lines float_repr self n lines)
    = (commands self ++ numbered n lines)%list.
Proof.
  induction lines as [|line lines IH]; intros self n; cbn [process_lines numbered].
  - now rewrite app_nil_r.
  - now rewrite IH, process_line_commands, <- app_assoc.
Qed.

(** ** An axis letter without a number *)

Lemma parse_coordinate_unnumbered line axis :
  unnumbered axis (upper line) "" = true -> parse_coordinate line axis = None.
Proof.
  intros H. unfold parse_coordinate.
  rewrite <- (append_empty_r (upper line)), (search_skips axis _ "" H).
  reflexivity.
Qed.

(** X13. A non-blank line that mentions X, Y or Z with no number right
    after any of these letters (a word, a comment, a bare letter) leaves
    the position as it is and still adds an entry to the trace: a copy of
    the current position. *)
Theorem axis_letter_without_number_repeats_position self n line :
  coordinate_line line = true ->
  (forall axis, In axis axis_letters ->
                unnumbered axis (upper (strip line)) "" = true) ->
  let self' := process_line float_repr self n line in
  (current_x self', current_y self', current_z self')
  = (current_x self, current_y self, current_z self)
  /\ x_positions self' = (x_positions self ++ [current_x self])%list
  /\ y_positions self' = (y_positions self ++ [current_y self])%list
  /\ z_positions self' = (z_positions self ++ [current_z self])%list.
Proof.
  intros Hline Hnone. cbv zeta.
  assert (Hfield : forall axis, In axis axis_letters ->
            position_field axis (process_line float_repr self n line)
            = position_field axis self).
  { intros axis Hin. rewrite process_line_field by assumption.
    unfold coordinate_line in Hline. rewrite Hline.
    now rewrite (parse_coordinate_unnumbered _ _ (Hnone axis Hin)). }
  pose proof (Hfield "X"%char (or_introl eq_refl)) as Hx.
  pose proof (Hfield "Y"%char (or_intror (or_introl eq_refl))) as Hy.
  pose proof (Hfield "Z"%char (or_intror (or_intror (or_introl eq_refl)))) as Hz.
  unfold position_field in Hx, Hy, Hz. cbn [Ascii.eqb Bool.eqb] in Hx, Hy, Hz.
  destruct (process_line_trace float_repr self n line) as (Tx & Ty & Tz).
  rewrite Hline in Tx, Ty, Tz.
  rewrite Tx, Ty, Tz, Hx, Hy, Hz. repeat split.
Qed.

(** ** Letter case *)

Lemma upper_char_idempotent c : upper_char (upper_char c) = upper_char c.
Proof. destruct c as [[] [] [] [] [] [] [] []]; reflexivity. Qed.

Lemma upper_char_space c : is_space (upper_char c) = is_space c.
Proof. destruct c as [[] [] [] [] [] [] [] []]; reflexivity. Qed.

Lemma upper_idempotent s : upper (upper s) = upper s.
Proof.
  induction s as [|c s IH]; [reflexivity|].
  unfold upper in *. cbn [smap]. now rewrite upper_char_idempotent, IH.
Qed.

Lemma lstrip_upper s : lstrip (upper s) = upper (lstrip s).
Proof.
  induction s as [|c s IH]; [reflexivity|].
  unfold upper in *. cbn [smap lstrip]. rewrite upper_char_space.
  now destruct (is_space c).
Qed.

Lemma rstrip_upper s : rstrip (upper s) = upper (rstrip s).
Proof.
  induction s as [|c s IH]; [reflexivity|].
  unfold upper in *. cbn [smap]. rewrite !rstrip_step, IH, upper_char_space.
  destruct (rstrip s); [now destruct (is_space c)|reflexivity].
Qed.

Lemma strip_upper s : strip (upper s) = upper (strip s).
Proof. unfold strip. now rewrite lstrip_upper, rstrip_upper. Qed.

Lemma is_empty_upper s : is_empty (upper s) = is_empty s.
Proof. now destruct s. Qed.

Lemma check_syntax_case self a b :
  upper a = upper b -> check_syntax self a = check_syntax self b.
Proof.
  intros H. unfold check_syntax. now rewrite <- !strip_upper, H.
Qed.

Lemma check_coordinates_case self a b :
  upper a = upper b ->
  check_coordinates float_repr self a = check_coordinates float_repr self b.
Proof. intros H. unfold check_coordinates, parse_coordinate. now rewrite H. Qed.

Lemma check_feed_rate_case self a b :
  upper a = upper b ->
  check_feed_rate float_repr self a = check_feed_rate float_repr self b.
Proof. intros H. unfold check_feed_rate. now rewrite H. Qed.

Lemma same_but_commands_refl a : same_but_commands a a.
Proof. reflexivity. Qed.

Lemma same_but_commands_fields a b :
  same_but_commands a b -> exists cs, a = set_commands b cs.
Proof.
  unfold same_but_commands, set_commands. intros H. exists (commands a).
  destruct a, b. cbn in *. now injection H as -> -> -> -> -> -> -> -> -> ->.
Qed.

Lemma check_syntax_set_commands self cs line :
  snd (check_syntax (set_commands self cs) line)
  = set_commands (snd (check_syntax self line)) cs.
Proof.
  unfold check_syntax, check_program_structure, set_commands. cbv zeta. fields.
  branches; reflexivity.
Qed.

Lemma check_coordinates_set_commands self cs line :
  check_coordinates float_repr (set_commands self cs) line
  = set_commands (check_coordinates float_repr self line) cs.
Proof.
  unfold check_coordinates, set_commands. cbv zeta. rewrite !if_add_warning. fields.
  reflexivity.
Qed.

Lemma check_feed_rate_set_commands self cs line :
  check_feed_rate float_repr (set_commands self cs) line
  = set_commands (check_feed_rate float_repr self line) cs.
Proof.
  unfold check_feed_rate, set_commands. cbv zeta. branches; reflexivity.
Qed.

(** X12. Two lines with the same upper-case form are processed alike: the
    position, the trace, the errors, the warnings and the registries come
    out the same; the command record alone keeps the spelling. *)
Theorem letter_case_is_ignored self n a b :
  upper a = upper b ->
  same_but_commands (process_line float_repr self n a)
    (process_line float_repr self n b).
Proof.
  intros H.
  assert (Hs : upper (strip a) = upper (strip b)) by now rewrite <- !strip_upper, H.
  unfold process_line. cbv zeta.
  rewrite <- (is_empty_upper (strip a)), Hs, is_empty_upper.
  destruct (is_empty (strip b)); [reflexivity|].
  unfold mentions_axis. rewrite Hs.
  rewrite (check_syntax_case _ (strip a) (strip b) Hs).
  change (add_command self (n, strip a))
    with (set_commands self (commands self ++ [(n, strip a)])).
  change (add_command self (n, strip b))
    with (set_commands self (commands self ++ [(n, strip b)])).
  rewrite !check_syntax_set_commands.
  destruct (existsb _ _).
  - rewrite (check_coordinates_case _ (strip a) (strip b) Hs).
    rewrite (check_feed_rate_case _ (strip a) (strip b) Hs).
    rewrite !check_coordinates_set_commands, !check_feed_rate_set_commands.
    reflexivity.
  - rewrite (check_feed_rate_case _ (strip a) (strip b) Hs).
    rewrite !check_feed_rate_set_commands. reflexivity.
Qed.

End FurtherLineProperties.

(** ** What [parse_coordinate] can return *)

Lemma take_drop_digits s : s = take_digits s ++ drop_digits s.
Proof.
  induction s as [|c s IH]; [reflexivity|].
  cbn [take_digits drop_digits]. destruct (is_digit c); [|reflexivity].
  cbn [append]. now rewrite <- IH.
Qed.

Lemma take_digits_all s : all_digits (take_digits s) = true.
Proof.
  induction s as [|c s IH]; [reflexivity|].
  cbn [take_digits]. destruct (is_digit c) eqn:E; [|reflexivity].
  cbn [all_digits]. now rewrite E.
Qed.

Lemma drop_digits_head s : starts_with_digit (drop_digits s) = false.
Proof.
  induction s as [|c s IH]; [reflexivity|].
  cbn [drop_digits]. destruct (is_digit c) eqn:E; [exact IH|exact E].
Qed.

Lemma take_digits_nonempty s : starts_with_digit s = true -> take_digits s <> "".
Proof.
  destruct s as [|c s]; [discriminate|]. cbn [starts_with_digit take_digits].
  now intros ->.
Qed.

Lemma take_digits_empty s : starts_with_digit s = false -> take_digits s = "" /\ drop_digits s = s.
Proof.
  destruct s as [|c s]; [now split|]. cbn [starts_with_digit take_digits drop_digits].
  now intros ->.
Qed.

(** What [\d*\.?\d+] matches at the head of a text: nothing where no
    number starts, and else a number token. *)
Lemma unsigned_match_cases s :
  (match_here [(is_digit, Star); (lit ".", Opt); (is_digit, Plus)] s = None
   /\ starts_with_digit s = false /\ starts_with_fraction s = false)
  \/ exists num post,
       match_here [(is_digit, Star); (lit ".", Opt); (is_digit, Plus)] s = Some num
       /\ s = num ++ post /\ number_token num post
       /\ (starts_with_digit s = true \/ starts_with_fraction s = true).
Proof.
  rewrite match_here_star.
  pose proof (take_drop_digits s) as Hs.
  pose proof (take_digits_all s) as Hip.
  pose proof (drop_digits_head s) as Hrest.
  destruct (starts_with_fraction (drop_digits s)) eqn:Hf.
  - right. destruct (drop_digits s) as [|c r] eqn:Er; [discriminate|].
    cbn [starts_with_fraction] in Hf. apply andb_prop in Hf as [Hc Hr].
    apply Ascii.eqb_eq in Hc. subst c.
    exists (take_digits s ++ "." ++ take_digits r), (drop_digits r).
    assert (E : s = take_digits s ++ "." ++ take_digits r ++ drop_digits r).
    { rewrite Hs at 1. cbn [append]. now rewrite <- (take_drop_digits r). }
    split; [|split; [|split]].
    + rewrite E at 1. apply digits_fraction; trivial.
      * apply take_digits_all.
      * now apply take_digits_nonempty.
      * apply drop_digits_head.
    + rewrite E at 1. now rewrite !append_assoc.
    + apply (token_fraction "" (take_digits s) (take_digits r) (drop_digits r));
        trivial.
      * apply take_digits_all.
      * now apply take_digits_nonempty.
      * apply drop_digits_head.
    + destruct (starts_with_digit s) eqn:Hd; [now left|right].
      destruct (take_digits_empty s Hd) as [_ E']. rewrite <- E', Er.
      cbn [starts_with_fraction]. unfold lit. rewrite Ascii.eqb_refl. exact Hr.
  - destruct (starts_with_digit s) eqn:Hd.
    + right. exists (take_digits s), (drop_digits s).
      split; [|split; [exact Hs|split; [|now left]]].
      * rewrite Hs at 1. apply digits_integer; trivial.
        now apply take_digits_nonempty.
      * apply (token_integer "" (take_digits s) (drop_digits s)); trivial.
        now apply take_digits_nonempty.
    + left. destruct (take_digits_empty s Hd) as [_ E]. rewrite E in Hf.
      split; [|split; trivial].
      rewrite star_no_digit by assumption. now apply fraction_fails.
Qed.

Lemma sign_then_token c num post :
  one_of "+-" c = true -> number_token num post ->
  (forall sign ip, num = sign ++ ip -> is_sign sign = true -> sign = "") ->
  number_token (String c num) post.
Proof.
  intros Hc Htok Hnosign.
  assert (Hs : is_sign (String c "") = true).
  { unfold one_of, has_char in Hc. unfold is_sign.
    destruct (Ascii.eqb_spec c "+") as [->|]; [reflexivity|].
    destruct (Ascii.eqb_spec c "-") as [->|]; [reflexivity|discriminate]. }
  destruct Htok as [sign ip post Hsg Hip Hne Hd Hf | sign ip fd post Hsg Hip Hfd Hne Hd].
  - rewrite (Hnosign sign ip eq_refl Hsg).
    now apply (token_integer (String c "") ip post).
  - rewrite (Hnosign sign (ip ++ "." ++ fd) eq_refl Hsg).
    now apply (token_fraction (String c "") ip fd post).
Qed.

(** What the numeral pattern matches at the head of a text. *)
Lemma signed_match_cases s :
  (match_here re_signed_number s = None /\ starts_number s = false)
  \/ exists num post,
       match_here re_signed_number s = Some num
       /\ s = num ++ post /\ number_token num post.
Proof.
  unfold re_signed_number, starts_number. cbv zeta.
  destruct s as [|c r].
  - rewrite match_here_opt_nil.
    destruct (unsigned_match_cases "") as [(H & Hd & Hf)|(num & post & H & E & Htok & _)].
    + left. now rewrite H, Hd, Hf.
    + right. now exists num, post.
  - rewrite match_here_opt. destruct (one_of "+-" c) eqn:Hc.
    + destruct (unsigned_match_cases r) as [(H & Hd & Hf)|(num & post & H & E & Htok & Hst)].
      * left. rewrite H, Hd, Hf. split; [|reflexivity].
        apply unsigned_fails.
        -- cbn [starts_with_digit]. destruct (is_digit c) eqn:Hdig; [|reflexivity].
           now rewrite (digit_not_sign c Hdig) in Hc.
        -- cbn [starts_with_fraction]. unfold one_of, has_char in Hc. unfold lit.
           destruct (Ascii.eqb_spec "."%char c) as [<-|]; [discriminate Hc|reflexivity].
      * right. rewrite H. exists (String c num), post.
        split; [reflexivity|]. split; [cbn [append]; now rewrite <- E|].
        apply sign_then_token; trivial.
        intros sign ip Enum Hsg. unfold is_sign in Hsg.
        destruct (String.eqb_spec sign "") as [->|_]; [reflexivity|]. exfalso.
        assert (Hfirst : exists d t, num = String d t /\ one_of "+-" d = true).
        { destruct (String.eqb_spec sign "+") as [->|_];
            [now exists "+"%char, ip|].
          destruct (String.eqb_spec sign "-") as [->|_];
            [now exists "-"%char, ip|discriminate]. }
        destruct Hfirst as (d & t & -> & Hdsign).
        cbn [append] in E. subst r.
        cbn [starts_with_digit starts_with_fraction] in Hst.
        destruct Hst as [Hst|Hst].
        -- now rewrite (digit_not_sign d Hst) in Hdsign.
        -- apply andb_prop in Hst as [Hdot _]. unfold lit in Hdot.
           apply Ascii.eqb_eq in Hdot. subst d. discriminate Hdsign.
    + destruct (unsigned_match_cases (String c r))
        as [(H & Hd & Hf)|(num & post & H & E & Htok & _)].
      * left. now rewrite H, Hd, Hf.
      * right. now exists num, post.
Qed.

(** X17. [parse_coordinate] answers a value only as the value of a signed
    decimal that stands right after an occurrence of the axis letter in
    the upper-cased line, the leftmost occurrence that has one; it answers
    nothing exactly when no occurrence of the letter has a number right
    after it. *)
Theorem parse_coordinate_reads_the_leftmost_number line axis :
  match parse_coordinate line axis with
  | Some v =>
      exists pre num post,
        upper line = pre ++ String axis (num ++ post)
        /\ unnumbered axis pre (String axis (num ++ post)) = true
        /\ number_token num post
        /\ v = float num
  | None => unnumbered axis (upper line) "" = true
  end.
Proof.
  unfold parse_coordinate.
  assert (H : match re_search (re_axis axis) (upper line) with
              | Some m =>
                  exists pre num post,
                    upper line = pre ++ String axis (num ++ post)
                    /\ unnumbered axis pre (String axis (num ++ post)) = true
                    /\ number_token num post /\ m = String axis num
              | None => unnumbered axis (upper line) "" = true
              end).
  { induction (upper line) as [|c s IH].
    - reflexivity.
    - unfold re_search. fold re_search. unfold re_axis at 1.
      rewrite match_here_one. unfold lit at 1.
      destruct (Ascii.eqb_spec axis c) as [<-|Hneq].
      + destruct (signed_match_cases s) as [(Hnone & Hst)|(num & post & Hm & E & Htok)].
        * rewrite Hnone. cbn [cons_match option_map].
          destruct (re_search (re_axis axis) s) as [m|].
          -- destruct IH as (pre & num & post & E & Hu & Htok & ->).
             exists (String axis pre), num, post.
             split; [cbn [append]; now rewrite E|]. split; [|now split].
             cbn [unnumbered]. rewrite <- E, Hst, andb_false_r. exact Hu.
          -- cbn [unnumbered]. rewrite append_empty_r, Hst, andb_false_r. exact IH.
        * rewrite Hm. cbn [cons_match option_map].
          exists "", num, post. cbn [append unnumbered]. rewrite <- E. now repeat split.
      + destruct (re_search (re_axis axis) s) as [m|].
        * destruct IH as (pre & num & post & E & Hu & Htok & ->).
          exists (String c pre), num, post.
          split; [cbn [append]; now rewrite E|]. split; [|now split].
          cbn [unnumbered]. apply Ascii.eqb_neq in Hneq. now rewrite Hneq.
        * cbn [unnumbered]. apply Ascii.eqb_neq in Hneq. now rewrite Hneq. }
  destruct (re_search (re_axis axis) (upper line)) as [m|]; [|exact H].
  destruct H as (pre & num & post & E & Hu & Htok & ->).
  exists pre, num, post. now repeat split.
Qed.

(** ** The analysis of a file, further *)

Section FurtherFileProperties.

Variable float_repr : Q -> string.
Variable fs : string -> file_entry.

Lemma lines_state_numbers filename lines :
  let s1 := process_lines float_repr (check_file_format init filename) 1 lines in
  Forall (fun x => is_number x = true) (main_programs s1)
  /\ Forall (fun x => is_number x = true) (program_calls s1).
Proof.
  cbv zeta.
  apply (registries_invariant float_repr
           (fun mp pc => Forall (fun x => is_number x = true) mp
                         /\ Forall (fun x => is_number x = true) pc)).
  - intros s l. apply check_program_structure_numbers.
  - destruct (check_file_format_plain filename) as (_ & -> & -> & _).
    split; constructor.
Qed.

(** The shape of every result of [analyze_file] on a fresh checker: the
    analysis ran to its end, or the file could not be read, or the only
    activation there was room for met the recursion limit at a call. *)
Lemma analyze_file_cases depth filename ok r :
  analyze_file float_repr fs depth init filename = Some (ok, r) ->
  (exists lines depth',
      depth = S depth' /\ fs filename = Regular lines /\ ok = true
      /\ r = validate_program_structure
               (resolved_state fs (analyze_file float_repr fs depth' init)
                  (main_dir_of filename)
                  (process_lines float_repr (check_file_format init filename) 1 lines)))
  \/ (ok = false
      /\ (forall lines, fs filename <> Regular lines)
      /\ exists m, r = add_error (check_file_format init filename) m)
  \/ (exists lines,
        depth = 1%nat /\ fs filename = Regular lines /\ ok = false
        /\ r = add_error
                 (process_lines float_repr (check_file_format init filename) 1 lines)
                 ("Error reading file: " ++ recursion_error)).
Proof.
  destruct depth as [|depth]; [discriminate|]. intros H.
  destruct (fs filename) as [|e|lines] eqn:Hfs.
  - right. left. rewrite analyze_file_S, Hfs in H. injection H as <- <-.
    split; [reflexivity|]. split; [discriminate|]. now eexists.
  - right. left. rewrite analyze_file_S, Hfs in H. injection H as <- <-.
    split; [reflexivity|]. split; [discriminate|]. now eexists.
  - destruct (analyze_file_regular float_repr fs depth init filename lines (ok, r) Hfs H)
      as [E|(-> & pre & post & _ & E)]; injection E as -> ->.
    + left. now exists lines, depth.
    + right. right. exists lines.
      now rewrite merged_state_unresolved by reflexivity.
Qed.

(** What a result keeps of the lines whatever follows them. *)
Lemma analyze_file_keeps_lines depth filename lines ok r :
  fs filename = Regular lines ->
  analyze_file float_repr fs depth init filename = Some (ok, r) ->
  let s1 := process_lines float_repr (check_file_format init filename) 1 lines in
  x_positions r = x_positions s1 /\ y_positions r = y_positions s1
  /\ z_positions r = z_positions s1
  /\ current_x r = current_x s1 /\ current_y r = current_y s1
  /\ current_z r = current_z s1
  /\ program_calls r = program_calls s1 /\ commands r = commands s1.
Proof.
  intros Hfs H.
  apply analyze_file_cases in H
    as [(l1 & d1 & _ & Hl1 & _ & ->)|[(_ & Hno & _)|(l1 & _ & Hl1 & _ & ->)]];
    [|now destruct (Hno lines)|];
    rewrite Hfs in Hl1; injection Hl1 as <-; cbv zeta.
  - rewrite validate_program_structure_spec. unfold resolved_state. fields.
    repeat split.
  - fields. repeat split.
Qed.

(** X4. When the analysis of a file returns, every entry of the program
    registry and of the call registry is a non-empty string of decimal
    digits. *)
Theorem registries_hold_numbers depth filename ok r :
  analyze_file float_repr fs depth init filename = Some (ok, r) ->
  Forall (fun x => is_number x = true) (main_programs r)
  /\ Forall (fun x => is_number x = true) (program_calls r).
Proof.
  intros H.
  apply analyze_file_cases in H
    as [(lines & d & _ & _ & _ & ->)|[(_ & _ & m & ->)|(lines & _ & _ & _ & ->)]].
  - destruct (lines_state_numbers filename lines) as [Hm Hc]. cbv zeta in Hm, Hc.
    rewrite validate_program_structure_spec. unfold resolved_state. fields.
    split; [|assumption].
    apply Forall_app. split; [assumption|].
    apply Forall_forall. intros x Hx. apply filter_In in Hx as [Hx _].
    rewrite Forall_forall in Hc. now apply Hc.
  - destruct (check_file_format_plain filename) as (_ & Hc & Hm & _).
    fields. rewrite Hc, Hm. split; constructor.
  - destruct (lines_state_numbers filename lines) as [Hm Hc]. cbv zeta in Hm, Hc.
    fields. now split.
Qed.

(** X16. The analysis answers [True] only for a file that was read.
    It answers [False] with the message of one of its two handlers as the
    last error: [File not found] with the name of the file, or
    [Error reading file] with the text of the exception, which a readable
    file meets too when an exception follows the read.  When the file is
    missing or cannot be read, the result holds that one error and
    nothing else of the file: no command, no trace entry, no registry
    entry. *)
Theorem unreadable_file_leaves_one_error depth filename ok r :
  analyze_file float_repr fs depth init filename = Some (ok, r) ->
  (ok = true -> exists lines, fs filename = Regular lines)
  /\ (ok = false ->
      exists before m,
        errors r = (before ++ [m])%list
        /\ (m = "File not found: " ++ filename
            \/ exists e, m = "Error reading file: " ++ e))
  /\ ((forall lines, fs filename <> Regular lines) ->
      ok = false
      /\ List.length (errors r) = 1%nat /\ commands r = []
      /\ x_positions r = [] /\ y_positions r = [] /\ z_positions r = []
      /\ main_programs r = [] /\ program_calls r = []).
Proof.
  intros H.
  assert (Hfmt : errors (check_file_format init filename) = []
                 /\ commands (check_file_format init filename) = []
                 /\ x_positions (check_file_format init filename) = []
                 /\ y_positions (check_file_format init filename) = []
                 /\ z_positions (check_file_format init filename) = []
                 /\ main_programs (check_file_format init filename) = []
                 /\ program_calls (check_file_format init filename) = []).
  { unfold check_file_format. cbv zeta. destruct (negb _); repeat split. }
  destruct Hfmt as (He & Hc & Hx & Hy & Hz & Hm & Hp).
  destruct depth as [|depth]; [discriminate|].
  destruct (fs filename) as [|e|lines] eqn:Hfs.
  - rewrite analyze_file_S, Hfs in H.
    injection H as <- <-. split; [discriminate|]. split.
    + intros _. exists (errors (check_file_format init filename)). eexists.
      split; [reflexivity|]. now left.
    + intros _. fields. rewrite He, Hc, Hx, Hy, Hz, Hm, Hp. repeat split.
  - rewrite analyze_file_S, Hfs in H.
    injection H as <- <-. split; [discriminate|]. split.
    + intros _. exists (errors (check_file_format init filename)). eexists.
      split; [reflexivity|]. right. now exists e.
    + intros _. fields. rewrite He, Hc, Hx, Hy, Hz, Hm, Hp. repeat split.
  - split; [intros _; now exists lines|]. split.
    + intros ->.
      apply analyze_file_cases in H
        as [(_ & _ & _ & _ & Hok & _)|[(_ & Hno & _)|(l1 & _ & _ & _ & ->)]];
        [discriminate Hok|now destruct (Hno lines)|].
      eexists. eexists. split; [reflexivity|]. right. now eexists.
    + intros Hno. now destruct (Hno lines).
Qed.

(** X8. When the first candidate of a call that exists cannot be read,
    the search for the call ends there with nothing merged and nothing
    registered, even if a later candidate is a readable file. *)
Theorem unreadable_candidate_ends_the_search dir call name e depth st :
  first_existing fs dir call = Some name ->
  fs (os_path_join dir name) = Unreadable e ->
  try_names fs (analyze_file float_repr fs (S depth) init) dir call
    (possible_names call) st = Some st
  /\ is_resolved fs (analyze_file float_repr fs (S depth) init) dir call = false.
Proof.
  intros Hfirst Hfs. split.
  - rewrite try_names_find. unfold first_existing in Hfirst. rewrite Hfirst.
    now rewrite analyze_file_S, Hfs.
  - unfold is_resolved, resolved. rewrite Hfirst.
    now rewrite analyze_file_S, Hfs.
Qed.

(** X9. In the result of an analysis the warning "called but not
    defined" is present for a number exactly when the analysis answered
    [True] and the number is in the call registry and not in the final
    program registry, which holds the numbers of the [O] lines of the
    file and of the calls resolved with success.  An analysis that an
    exception ended ran no validation and holds no such warning. *)
Theorem undefined_calls_are_exactly_the_reported_ones depth filename lines ok r :
  fs filename = Regular lines ->
  analyze_file float_repr fs depth init filename = Some (ok, r) ->
  forall call,
    In ("Subprogram P" ++ call ++ " called but not defined") (warnings r)
    <-> ok = true /\ In call (program_calls r) /\ ~ In call (main_programs r).
Proof.
  intros Hfs H call.
  set (s1 := process_lines float_repr (check_file_format init filename) 1 lines).
  assert (Hs1 : Forall plain (warnings s1)).
  { destruct (check_file_format_plain filename) as (Hplain & _).
    apply process_lines_warnings. exact Hplain. }
  apply analyze_file_cases in H
    as [(lines' & d & _ & Hfs' & -> & ->)|[(_ & Hno & _)|(lines' & _ & Hfs' & -> & ->)]];
    [|now destruct (Hno lines)|];
    rewrite Hfs in Hfs'; injection Hfs' as <-; fold s1.
  - set (s2 := resolved_state fs (analyze_file float_repr fs d init)
                 (main_dir_of filename) s1).
    assert (Hw : Forall plain (warnings s2)).
    { destruct (check_file_format_plain filename) as (_ & Hcalls & _).
      apply resolved_state_warnings; [exact Hs1|].
      apply process_lines_calls. rewrite Hcalls. constructor. }
    rewrite validate_program_structure_spec. fields.
    fold (call_warning call). split.
    + intros Hin. split; [reflexivity|]. apply in_app_or in Hin as [Hin|Hin].
      * rewrite Forall_forall in Hw. apply Hw in Hin.
        now destruct (call_warning_not_plain call).
      * apply in_app_or in Hin as [Hin|Hin].
        -- apply in_map_iff in Hin as (c & E & Hc).
           apply call_warning_inj in E. subst c.
           apply filter_In in Hc as [Hc Hmem]. split; [assumption|].
           intros Hm. apply mem_In in Hm. now rewrite Hm in Hmem.
        -- apply in_map_iff in Hin as (p & E & _).
           pose proof (unused_warning_plain p) as Hp. rewrite E in Hp.
           now destruct (call_warning_not_plain call).
    + intros (_ & Hc & Hm). apply in_or_app. right. apply in_or_app. left.
      apply in_map. apply filter_In. split; [assumption|].
      destruct (mem call (main_programs s2)) eqn:E; [|reflexivity].
      apply mem_In in E. contradiction.
  - fields. fold (call_warning call). split.
    + intros Hin. rewrite Forall_forall in Hs1. apply Hs1 in Hin.
      now destruct (call_warning_not_plain call).
    + intros (Hok & _). discriminate Hok.
Qed.

(** X7. The command records of a result are the non-blank lines of the
    file, comments and rejected lines included, in the order of the file:
    the trimmed text with the number the line has in the file, blank
    lines counted. *)
Theorem commands_are_the_numbered_nonblank_lines depth filename lines ok r :
  fs filename = Regular lines ->
  analyze_file float_repr fs depth init filename = Some (ok, r) ->
  commands r = numbered 1 lines
  /\ List.length (commands r)
     = List.length (filter (fun l => negb (is_empty (strip l))) lines).
Proof.
  intros Hfs H.
  destruct (analyze_file_keeps_lines depth filename lines ok r Hfs H)
    as (_ & _ & _ & _ & _ & _ & _ & ->).
  rewrite process_lines_commands.
  assert (Hc : commands (check_file_format init filename) = []).
  { unfold check_file_format. cbv zeta. now destruct (negb _). }
  rewrite Hc. cbn [app]. split; [reflexivity|].
  clear Hfs. generalize 1%nat.
  induction lines as [|l lines IH]; intros n; [reflexivity|].
  cbn [numbered filter]. rewrite length_app, IH.
  now destruct (is_empty (strip l)).
Qed.


(** *** The end of the trace *)

Lemma process_line_last self n line :
  last (x_positions self) 0 = current_x self
  /\ last (y_positions self) 0 = current_y self
  /\ last (z_positions self) 0 = current_z self ->
  let self' := process_line float_repr self n line in
  last (x_positions self') 0 = current_x self'
  /\ last (y_positions self') 0 = current_y self'
  /\ last (z_positions self') 0 = current_z self'.
Proof.
  intros (Hx & Hy & Hz). cbv zeta.
  destruct (process_line_trace float_repr self n line) as (Tx & Ty & Tz).
  pose proof (process_line_field float_repr self n line "X"%char (or_introl eq_refl)) as Fx.
  pose proof (process_line_field float_repr self n line "Y"%char
                (or_intror (or_introl eq_refl))) as Fy.
  pose proof (process_line_field float_repr self n line "Z"%char
                (or_intror (or_intror (or_introl eq_refl)))) as Fz.
  unfold position_field in Fx, Fy, Fz. cbn [Ascii.eqb Bool.eqb] in Fx, Fy, Fz.
  fold (coordinate_line line) in Fx, Fy, Fz.
  rewrite Tx, Ty, Tz.
  destruct (coordinate_line line).
  - now rewrite !last_last.
  - now rewrite !app_nil_r, Fx, Fy, Fz.
Qed.

Lemma process_lines_last lines :
  forall self n,
    last (x_positions self) 0 = current_x self
    /\ last (y_positions self) 0 = current_y self
    /\ last (z_positions self) 0 = current_z self ->
    let self' := process_lines float_repr self n lines in
    last (x_positions self') 0 = current_x self'
    /\ last (y_positions self') 0 = current_y self'
    /\ last (z_positions self') 0 = current_z self'.
Proof.
  induction lines as [|line lines IH]; intros self n H; [exact H|].
  cbn [process_lines]. apply IH. now apply process_line_last.
Qed.

(** X19. In every result the three lists of the trace have the same
    length, and the last entry of the trace is the final position; a
    result with an empty trace still stands at the initial position
    (0, 0, 0). *)
Theorem trace_ends_at_the_final_position depth filename ok r :
  analyze_file float_repr fs depth init filename = Some (ok, r) ->
  List.length (x_positions r) = List.length (y_positions r)
  /\ List.length (y_positions r) = List.length (z_positions r)
  /\ (last (x_positions r) 0, last (y_positions r) 0, last (z_positions r) 0)
     = (current_x r, current_y r, current_z r).
Proof.
  intros H.
  assert (Hlines : forall lines r',
             x_positions r'
             = x_positions (process_lines float_repr (check_file_format init filename) 1 lines) ->
             y_positions r'
             = y_positions (process_lines float_repr (check_file_format init filename) 1 lines) ->
             z_positions r'
             = z_positions (process_lines float_repr (check_file_format init filename) 1 lines) ->
             current_x r'
             = current_x (process_lines float_repr (check_file_format init filename) 1 lines) ->
             current_y r'
             = current_y (process_lines float_repr (check_file_format init filename) 1 lines) ->
             current_z r'
             = current_z (process_lines float_repr (check_file_format init filename) 1 lines) ->
             List.length (x_positions r') = List.length (y_positions r')
             /\ List.length (y_positions r') = List.length (z_positions r')
             /\ (last (x_positions r') 0, last (y_positions r') 0, last (z_positions r') 0)
                = (current_x r', current_y r', current_z r')).
  { intros lines r' -> -> -> -> -> ->.
    destruct (process_lines_trace float_repr lines (check_file_format init filename) 1)
      as (Lx & Ly & Lz).
    assert (H0 : forall s : GCodeChecker, s = check_file_format init filename ->
              x_positions s = [] /\ y_positions s = [] /\ z_positions s = []
              /\ current_x s = 0 /\ current_y s = 0 /\ current_z s = 0).
    { intros s ->. unfold check_file_format. cbv zeta.
      destruct (negb _); repeat split. }
    destruct (H0 _ eq_refl) as (Ex & Ey & Ez & Cx & Cy & Cz).
    destruct (process_lines_last lines (check_file_format init filename) 1)
      as (Hx & Hy & Hz).
    { now rewrite Ex, Ey, Ez, Cx, Cy, Cz. }
    rewrite <- Hx, <- Hy, <- Hz, Lx, Ly, Lz, Ex, Ey, Ez. repeat split. }
  destruct (fs filename) as [|e|lines] eqn:Hfs.
  - apply analyze_file_cases in H
      as [(l1 & _ & _ & Hl1 & _)|[(_ & _ & m & ->)|(l1 & _ & Hl1 & _)]];
      try congruence.
    unfold check_file_format. cbv zeta. destruct (negb _); repeat split.
  - apply analyze_file_cases in H
      as [(l1 & _ & _ & Hl1 & _)|[(_ & _ & m & ->)|(l1 & _ & Hl1 & _)]];
      try congruence.
    unfold check_file_format. cbv zeta. destruct (negb _); repeat split.
  - destruct (analyze_file_keeps_lines depth filename lines ok r Hfs H)
      as (Kx & Ky & Kz & Cx & Cy & Cz & _).
    now apply (Hlines lines).
Qed.

(** *** Without nested analyses *)

Lemma for_calls_unresolved analyze dir calls :
  (forall call, In call calls -> first_existing fs dir call = None) ->
  forall st, for_calls fs analyze dir calls st = Some st.
Proof.
  induction calls as [|call calls IH]; intros H st; [reflexivity|].
  cbn [for_calls]. rewrite try_names_unresolved by (apply H; now left).
  apply IH. intros c Hc. apply H. now right.
Qed.

(** X15. When no call of a file has a candidate that exists, the analysis
    of the file returns without any nested analysis, and its result is
    the validation of the state the lines left. *)
Theorem file_without_resolvable_calls_needs_no_nesting depth filename lines :
  fs filename = Regular lines ->
  let s1 := process_lines float_repr (check_file_format init filename) 1 lines in
  (forall call, In call (program_calls s1) ->
                first_existing fs (main_dir_of filename) call = None) ->
  analyze_file float_repr fs (S depth) init filename
  = Some (true, validate_program_structure s1).
Proof.
  intros Hfs s1 Hnone. rewrite analyze_file_S, Hfs. cbv zeta. fold s1.
  unfold auto_detect_and_analyze_subprograms.
  now rewrite for_calls_unresolved.
Qed.

(** *** Cycles *)


(** *** Messages of nested subprograms *)

Lemma child_errors_in_parent depth filename ok r call name sub_checker :
  analyze_file float_repr fs (S depth) init filename = Some (ok, r) ->
  In call (program_calls r) ->
  first_existing fs (main_dir_of filename) call = Some name ->
  analyze_file float_repr fs depth init (os_path_join (main_dir_of filename) name)
  = Some (true, sub_checker) ->
  forall e, In e (errors sub_checker) ->
            In ("Subprogram " ++ name ++ ": " ++ e) (errors r).
Proof.
  intros H Hcall Hname Hsub e He.
  apply analyze_file_cases in H
    as [(lines & d & Hd & _ & _ & ->)|[(_ & _ & m & ->)|(lines & Hd & _)]].
  - injection Hd as <-.
    rewrite validate_program_structure_spec in Hcall |- *.
    unfold resolved_state in *. fields. fields in Hcall.
    apply in_or_app. right. apply in_flat_map. exists call. split; [assumption|].
    unfold merged_errors, resolved. rewrite Hname, Hsub.
    unfold prefixed. apply in_map_iff. now exists e.
  - destruct (check_file_format_plain filename) as (_ & Hc & _).
    fields in Hcall. rewrite Hc in Hcall. destruct Hcall.
  - injection Hd as ->. discriminate Hsub.
Qed.

(** X11. The errors of a subprogram of a subprogram reach the main file
    with both file names in front, the nearer file first:
    [Subprogram <child>: Subprogram <grandchild>: <message>]. *)
Theorem nested_messages_carry_every_file_name
  depth filename ok r call1 name1 r1 call2 name2 r2 :
  let child := os_path_join (main_dir_of filename) name1 in
  let grandchild := os_path_join (main_dir_of child) name2 in
  analyze_file float_repr fs (S (S depth)) init filename = Some (ok, r) ->
  In call1 (program_calls r) ->
  first_existing fs (main_dir_of filename) call1 = Some name1 ->
  analyze_file float_repr fs (S depth) init child = Some (true, r1) ->
  In call2 (program_calls r1) ->
  first_existing fs (main_dir_of child) call2 = Some name2 ->
  analyze_file float_repr fs depth init grandchild = Some (true, r2) ->
  forall e, In e (errors r2) ->
            In ("Subprogram " ++ name1 ++ ": Subprogram " ++ name2 ++ ": " ++ e)
              (errors r).
Proof.
  intros child grandchild H Hc1 Hn1 H1 Hc2 Hn2 H2 e He.
  apply (child_errors_in_parent (S depth) filename ok r call1 name1 r1 H Hc1 Hn1 H1).
  exact (child_errors_in_parent depth child true r1 call2 name2 r2 H1 Hc2 Hn2 H2 e He).
Qed.

End FurtherFileProperties.

(** *** The files next to the main file *)

(** X10. The trace, the position, the command records and the call
    registry of a result come from the lines of the analysed file alone:
    two directories that hold the same file under the same name give the
    same ones, whatever subprogram files they hold. *)
Theorem result_keeps_nothing_of_the_subprograms
  (float_repr : Q -> string) (fs1 fs2 : string -> file_entry)
  depth1 depth2 filename lines ok1 r1 ok2 r2 :
  fs1 filename = Regular lines ->
  fs2 filename = Regular lines ->
  analyze_file float_repr fs1 depth1 init filename = Some (ok1, r1) ->
  analyze_file float_repr fs2 depth2 init filename = Some (ok2, r2) ->
  x_positions r1 = x_positions r2 /\ y_positions r1 = y_positions r2
  /\ z_positions r1 = z_positions r2
  /\ (current_x r1, current_y r1, current_z r1)
     = (current_x r2, current_y r2, current_z r2)
  /\ program_calls r1 = program_calls r2
  /\ commands r1 = commands r2.
Proof.
  intros Hfs1 Hfs2 H1 H2.
  destruct (analyze_file_keeps_lines float_repr fs1 depth1 filename lines ok1 r1 Hfs1 H1)
    as (-> & -> & -> & -> & -> & -> & -> & ->).
  destruct (analyze_file_keeps_lines float_repr fs2 depth2 filename lines ok2 r2 Hfs2 H2)
    as (-> & -> & -> & -> & -> & -> & -> & ->).
  fold (check_file_format init filename).
  assert (E : check_file_format init filename = check_file_format init filename)
    by reflexivity.
  repeat split.
Qed.

(** ** The further properties on sample inputs *)

Lemma ignorable_line_registers_nothing_witness :
  ignorable "(O100 M98 P200)" = true
  /\ main_programs (process_line repr_decimal init 1 "(O100 M98 P200)") = []
  /\ program_calls (process_line repr_decimal init 1 "(O100 M98 P200)") = [].
Proof.
  split; [reflexivity|].
  exact (ignorable_line_registers_nothing repr_decimal init 1%nat "(O100 M98 P200)"
           eq_refl).
Defined.

Lemma lines_keep_registry_duplicate_free_witness :
  NoDup (main_programs (process_lines repr_decimal init 1 ["O100"; "O7"; "O100"])).
Proof.
  apply (lines_keep_registry_duplicate_free repr_decimal ["O100"; "O7"; "O100"] init
           1%nat).
  constructor.
Defined.

Lemma range_check_reports_every_axis_out_of_range_witness :
  Qgtb (Qabs (1500 # 1)) max_travel = true
  /\ In ("X coordinate " ++ repr_decimal (1500 # 1) ++ " exceeds typical travel range")
       (warnings (check_coordinates repr_decimal (set_current init (1500 # 1) 0 0) "Y5")).
Proof.
  split; [reflexivity|].
  destruct (range_check_reports_every_axis_out_of_range repr_decimal
              (set_current init (1500 # 1) 0 0) "Y5") as (_ & _ & H).
  apply H; reflexivity.
Defined.

Lemma axis_letter_without_number_repeats_position_witness :
  coordinate_line "(next)" = true
  /\ x_positions (process_line repr_decimal (set_current init (7 # 1) 0 0) 1 "(next)")
     = [7 # 1].
Proof.
  split; [reflexivity|].
  destruct (axis_letter_without_number_repeats_position repr_decimal
              (set_current init (7 # 1) 0 0) 1%nat "(next)") as (_ & Hx & _).
  - reflexivity.
  - intros axis [<-|[<-|[<-|[]]]]; reflexivity.
  - exact Hx.
Defined.

Lemma letter_case_is_ignored_witness :
  same_but_commands (process_line repr_decimal init 1 "g1 x10 f0")
    (process_line repr_decimal init 1 "G1 X10 F0").
Proof.
  apply (letter_case_is_ignored repr_decimal init 1%nat "g1 x10 f0" "G1 X10 F0").
  reflexivity.
Defined.

Lemma registries_hold_numbers_witness :
  match analyze_file repr_decimal fs_with_sub 2 init "main.nc" with
  | Some (_, r) =>
      Forall (fun x => is_number x = true) (main_programs r)
      /\ Forall (fun x => is_number x = true) (program_calls r)
  | None => False
  end.
Proof.
  destruct (analyze_file repr_decimal fs_with_sub 2 init "main.nc") as [[ok r]|] eqn:E.
  - exact (registries_hold_numbers repr_decimal fs_with_sub 2 "main.nc" ok r E).
  - vm_compute in E. discriminate E.
Defined.

Lemma unreadable_file_leaves_one_error_witness :
  match analyze_file repr_decimal fs_main_only 1 init "absent.nc" with
  | Some (ok, r) => ok = false /\ List.length (errors r) = 1%nat /\ commands r = []
  | None => False
  end.
Proof.
  destruct (analyze_file repr_decimal fs_main_only 1 init "absent.nc") as [[ok r]|] eqn:E.
  - destruct (unreadable_file_leaves_one_error repr_decimal fs_main_only 1
                "absent.nc" ok r E) as (_ & _ & H).
    destruct H as (Hok & He & Hc & _); [|now repeat split].
    intros lines Hl. vm_compute in Hl. discriminate Hl.
  - vm_compute in E. discriminate E.
Defined.

Lemma unreadable_candidate_ends_the_search_witness :
  first_existing fs_unreadable "." "200" = Some "O200.txt"
  /\ fs_unreadable (os_path_join "." "O200.nc") = Regular sub_lines
  /\ try_names fs_unreadable (analyze_file repr_decimal fs_unreadable 1 init) "." "200"
       (possible_names "200") (init, []) = Some (init, []).
Proof.
  split; [reflexivity|]. split; [reflexivity|].
  exact (proj1 (unreadable_candidate_ends_the_search repr_decimal fs_unreadable
                  "." "200" "O200.txt" "Is a directory" 0 (init, []) eq_refl eq_refl)).
Defined.

Lemma undefined_calls_are_exactly_the_reported_ones_witness :
  match analyze_file repr_decimal fs_main_only 1 init "main.nc" with
  | Some (ok, r) =>
      In "Subprogram P200 called but not defined" (warnings r)
      <-> ok = true /\ In "200" (program_calls r) /\ ~ In "200" (main_programs r)
  | None => False
  end.
Proof.
  destruct (analyze_file repr_decimal fs_main_only 1 init "main.nc") as [[ok r]|] eqn:E.
  - exact (undefined_calls_are_exactly_the_reported_ones repr_decimal fs_main_only 1
             "main.nc" main_lines ok r eq_refl E "200").
  - vm_compute in E. discriminate E.
Defined.

Lemma commands_are_the_numbered_nonblank_lines_witness :
  match analyze_file repr_decimal fs_with_sub 2 init "main.nc" with
  | Some (_, r) => commands r = [(1%nat, "O100"); (2%nat, "M98 P200"); (3%nat, "M30")]
  | None => False
  end.
Proof.
  destruct (analyze_file repr_decimal fs_with_sub 2 init "main.nc") as [[ok r]|] eqn:E.
  - destruct (commands_are_the_numbered_nonblank_lines repr_decimal fs_with_sub 2
                "main.nc" main_lines ok r eq_refl E) as [H _].
    rewrite H. reflexivity.
  - vm_compute in E. discriminate E.
Defined.


Lemma file_without_resolvable_calls_needs_no_nesting_witness :
  analyze_file repr_decimal fs_main_only 1 init "main.nc"
  = Some (true,
          validate_program_structure
            (process_lines repr_decimal (check_file_format init "main.nc") 1 main_lines)).
Proof.
  apply (file_without_resolvable_calls_needs_no_nesting repr_decimal fs_main_only 0
           "main.nc" main_lines eq_refl).
  intros call Hin. vm_compute in Hin. destruct Hin as [<-|[]]. reflexivity.
Defined.


Lemma nested_messages_carry_every_file_name_witness :
  match analyze_file repr_decimal fs_nested 3 init "main.nc" with
  | Some (_, r) =>
      In "Subprogram O200.nc: Subprogram O300.nc: Invalid command format: HELLO"
        (errors r)
  | None => False
  end.
Proof.
  destruct (analyze_file repr_decimal fs_nested 3 init "main.nc") as [[ok r]|] eqn:E.
  - destruct (analyze_file repr_decimal fs_nested 2 init "./O200.nc")
      as [[[|] r1]|] eqn:E1; try (vm_compute in E1; discriminate E1).
    destruct (analyze_file repr_decimal fs_nested 1 init "./O300.nc")
      as [[[|] r2]|] eqn:E2; try (vm_compute in E2; discriminate E2).
    apply (nested_messages_carry_every_file_name repr_decimal fs_nested 1 "main.nc"
             ok r "200" "O200.nc" r1 "300" "O300.nc" r2 E).
    + vm_compute in E. injection E as _ <-. now left.
    + reflexivity.
    + exact E1.
    + vm_compute in E1. injection E1 as <-. now left.
    + reflexivity.
    + exact E2.
    + vm_compute in E2. injection E2 as <-. now left.
  - vm_compute in E. discriminate E.
Defined.

Lemma result_keeps_nothing_of_the_subprograms_witness :
  match analyze_file repr_decimal fs_main_only 1 init "main.nc",
        analyze_file repr_decimal fs_with_sub 2 init "main.nc" with
  | Some (_, r1), Some (_, r2) =>
      program_calls r1 = program_calls r2 /\ commands r1 = commands r2
  | _, _ => False
  end.
Proof.
  destruct (analyze_file repr_decimal fs_main_only 1 init "main.nc")
    as [[ok1 r1]|] eqn:E1; [|vm_compute in E1; discriminate E1].
  destruct (analyze_file repr_decimal fs_with_sub 2 init "main.nc")
    as [[ok2 r2]|] eqn:E2; [|vm_compute in E2; discriminate E2].
  destruct (result_keeps_nothing_of_the_subprograms repr_decimal fs_main_only
              fs_with_sub 1 2 "main.nc" main_lines ok1 r1 ok2 r2 eq_refl eq_refl E1 E2)
    as (_ & _ & _ & _ & Hc & Hcmd).
  now split.
Defined.

Lemma trace_ends_at_the_final_position_witness :
  match analyze_file repr_decimal fs_with_sub 1 init "./O200.nc" with
  | Some (_, r) => last (x_positions r) 0 = current_x r
  | None => False
  end.
Proof.
  destruct (analyze_file repr_decimal fs_with_sub 1 init "./O200.nc") as [[ok r]|] eqn:E.
  - destruct (trace_ends_at_the_final_position repr_decimal fs_with_sub 1 "./O200.nc"
                ok r E) as (_ & _ & H).
    now injection H as H _ _.
  - vm_compute in E. discriminate E.
Defined.
